(** * Checkout simulation: payment methods, orders and the transaction log

    A shallow embedding of [programm#1.py].

    Modelling conventions.
    - Python [float] and [int] amounts are exact rationals ([Q]); the
      arithmetic of the source is written with [Qplus], [Qminus], [Qmult]
      and [Qdiv].  Rounding, infinities and NaN are outside the model.
    - A [str] is a [string] of code points below 256.
    - A payment-method instance is an object in a store ([heap]) and is
      referred to by its location, a [nat]: an [Order] holds a reference,
      so two calls that go through the same reference see the same ledger.
    - [print] appends a line to [stdout]; [logging.info] appends a line to
      the file the root logger is configured with.  The prompts written
      by [input] are not recorded.
    - The rows of items typed before ['done'] reach [main] already
      converted by [int] and [float]; the other lines are read from
      [stdin].
    - An exception is the outcome [Raise e]; the effects performed before
      the exception stay in the world. *)

From Stdlib Require Import ZArith QArith Qround Qminmax Qabs Lqa Ascii String List.
From stdpp Require Import base option gmap strings list pretty.

Local Open Scope Z_scope.
Local Open Scope string_scope.

(** ** Strings *)

Module Str.

(** [s.endswith(suffix)] *)
Fixpoint starts_with (p s : string) : bool :=
  match p, s with
  | EmptyString, _ => true
  | String a p', String b s' => if Ascii.eqb a b then starts_with p' s' else false
  | String _ _, EmptyString => false
  end.

Fixpoint ends_with (suffix s : string) : bool :=
  if String.eqb suffix s then true
  else match s with
       | EmptyString => false
       | String _ s' => ends_with suffix s'
       end.

(** [s.replace(old, new)] for a non-empty [old]: the occurrences of
    [old] are replaced from left to right, without overlap.  [skip]
    counts the characters of a replaced occurrence still to drop. *)
Fixpoint replace_from (old new : string) (skip : nat) (s : string) : string :=
  match s with
  | EmptyString => EmptyString
  | String c s' =>
      match skip with
      | S k => replace_from old new k s'
      | O =>
          if starts_with old s
          then new +:+ replace_from old new (String.length old - 1) s'
          else String c (replace_from old new O s')
      end
  end.

Definition replace (old new s : string) : string := replace_from old new O s.

End Str.

(** ** Regular expressions, as used through [re.match] *)

Module Re.

Inductive regex : Type :=
| Never
| Eps
| Class (p : ascii -> bool)
| Seq (r1 r2 : regex)
| Alt (r1 r2 : regex)
| Star (r : regex).

Definition Plus (r : regex) : regex := Seq r (Star r).

Fixpoint Times (n : nat) (r : regex) : regex :=
  match n with
  | O => Eps
  | S k => Seq r (Times k r)
  end.

Fixpoint nullable (r : regex) : bool :=
  match r with
  | Never => false
  | Eps => true
  | Class _ => false
  | Seq r1 r2 => nullable r1 && nullable r2
  | Alt r1 r2 => nullable r1 || nullable r2
  | Star _ => true
  end.

Fixpoint deriv (c : ascii) (r : regex) : regex :=
  match r with
  | Never => Never
  | Eps => Never
  | Class p => if p c then Eps else Never
  | Seq r1 r2 =>
      if nullable r1
      then Alt (Seq (deriv c r1) r2) (deriv c r2)
      else Seq (deriv c r1) r2
  | Alt r1 r2 => Alt (deriv c r1) (deriv c r2)
  | Star r1 => Seq (deriv c r1) (Star r1)
  end.

(** The whole of [s] is a word of [r]. *)
Fixpoint full_match (r : regex) (s : string) : bool :=
  match s with
  | EmptyString => nullable r
  | String c s' => full_match (deriv c r) s'
  end.

(** Some prefix of [s] is a word of [r]: [re.match(r, s)] is not [None]. *)
Fixpoint prefix_match (r : regex) (s : string) : bool :=
  nullable r ||
  match s with
  | EmptyString => false
  | String c s' => prefix_match (deriv c r) s'
  end.

(** [re.match("^" r "$", s)]: [$] stands at the end of the string and
    also just before a newline that ends the string. *)
Definition anchored_match (r : regex) (s : string) : bool :=
  full_match r s || full_match (Seq r (Class (Ascii.eqb "010"%char))) s.

(** [\d], on code points below 256. *)
Definition digit (c : ascii) : bool :=
  (48 <=? N_of_ascii c)%N && (N_of_ascii c <=? 57)%N.

Definition not_at (c : ascii) : bool := negb (Ascii.eqb c "@"%char).
Definition dot (c : ascii) : bool := Ascii.eqb c "."%char.
Definition slash (c : ascii) : bool := Ascii.eqb c "/"%char.

(** [^\d{16}$] *)
Definition card_number_re : regex := Times 16 (Class digit).
(** [^\d{2}/\d{2}$] *)
Definition expiry_date_re : regex :=
  Seq (Times 2 (Class digit)) (Seq (Class slash) (Times 2 (Class digit))).
(** [^\d{3}$] *)
Definition cvv_re : regex := Times 3 (Class digit).
(** [[^@]+@[^@]+\.[^@]+] *)
Definition email_re : regex :=
  Seq (Plus (Class not_at))
    (Seq (Class (Ascii.eqb "@"%char))
       (Seq (Plus (Class not_at)) (Seq (Class dot) (Plus (Class not_at))))).

End Re.

(** ** Amounts and their rendering *)

Definition Qltb (x y : Q) : bool := negb (Qle_bool y x).

(** [x >= y] *)
Definition Qgeb (x y : Q) : bool := Qle_bool y x.

Module Fmt.

(** Nearest integer, ties to even. *)
Definition round_half_even (x : Q) : Z :=
  let f := Qfloor x in
  let r := (x - inject_Z f)%Q in
  if Qltb r (1 # 2) then f
  else if Qltb (1 # 2) r then f + 1
  else if Z.even f then f else f + 1.

Definition two_digits (n : N) : string :=
  pretty (n / 10)%N +:+ pretty (n mod 10)%N.

(** [f"{amount:.2f}"] *)
Definition fixed2 (amount : Q) : string :=
  let cents := Z.to_N (Z.abs (round_half_even (amount * 100)%Q)) in
  (if Qltb amount 0 then "-" else EmptyString) +:+
  pretty (cents / 100)%N +:+ "." +:+ two_digits (cents mod 100)%N.

End Fmt.

(** ** The world: object store, console, clock, logging *)

Inductive exn : Type :=
| KeyError (key : option string)
| TypeError
| EOFError
| AttributeError.

Inductive Res (A : Type) : Type :=
| Ok (a : A)
| Raise (e : exn).
Arguments Ok {A} a.
Arguments Raise {A} e.

(** A payment-method instance: its class and its ledger attribute
    ([approved_cards], [approved_emails], [mock_wallets]). *)
Inductive PaymentMethod : Type :=
| CreditCard (approved_cards : gmap string Q)
| PayPal (approved_emails : gmap string Q)
| Cryptocurrency (mock_wallets : gmap string Q).

(** The root logger of [logging]: not configured yet, writing to the
    standard error stream, or writing to a file with the level it was
    configured with ([logging.INFO] is 20, [logging.WARNING] is 30). *)
Inductive sink : Type :=
| Unconfigured
| Stderr
| File (filename : string) (level : Z).

Definition INFO : Z := 20.

Record World : Type := mkWorld {
  heap : gmap nat PaymentMethod;
  stdin : list string;
  stdout : list string;
  clock : string;
  log_sink : sink;
  files : gmap string (list string)
}.

Definition with_heap (h : gmap nat PaymentMethod) (w : World) : World :=
  mkWorld h (stdin w) (stdout w) (clock w) (log_sink w) (files w).
Definition with_stdin (i : list string) (w : World) : World :=
  mkWorld (heap w) i (stdout w) (clock w) (log_sink w) (files w).
Definition with_stdout (o : list string) (w : World) : World :=
  mkWorld (heap w) (stdin w) o (clock w) (log_sink w) (files w).
Definition with_log_sink (s : sink) (w : World) : World :=
  mkWorld (heap w) (stdin w) (stdout w) (clock w) s (files w).
Definition with_files (f : gmap string (list string)) (w : World) : World :=
  mkWorld (heap w) (stdin w) (stdout w) (clock w) (log_sink w) f.

(** Computations: they read and change the world, and return or raise. *)
Definition M (A : Type) : Type := World -> Res A * World.

Definition ret {A} (a : A) : M A := fun w => (Ok a, w).
Definition raise {A} (e : exn) : M A := fun w => (Raise e, w).
Definition bind {A B} (m : M A) (k : A -> M B) : M B :=
  fun w => match m w with
           | (Ok a, w') => k a w'
           | (Raise e, w') => (Raise e, w')
           end.

Notation "x <- m ;; k" := (bind m (fun x => k))
  (at level 100, m at next level, right associativity).
Notation "m ;; k" := (bind m (fun _ => k))
  (at level 100, right associativity).

Definition print (line : string) : M unit :=
  fun w => (Ok tt, with_stdout (stdout w ++ [line]) w).

(** [input(...)]: the next line typed. *)
Definition input : M string :=
  fun w => match stdin w with
           | [] => (Raise EOFError, w)
           | line :: rest => (Ok line, with_stdin rest w)
           end.

(** [str(datetime.now())] *)
Definition now : M string := fun w => (Ok (clock w), w).

(** Object creation: a location that is not in use. *)
Definition new (pm : PaymentMethod) : M nat :=
  fun w => let l := fresh (dom (heap w)) in
           (Ok l, with_heap (<[l := pm]> (heap w)) w).

Definition load (l : nat) : M PaymentMethod :=
  fun w => match heap w !! l with
           | Some pm => (Ok pm, w)
           | None => (Raise AttributeError, w)
           end.

Definition store (l : nat) (pm : PaymentMethod) : M unit :=
  fun w => (Ok tt, with_heap (<[l := pm]> (heap w)) w).

(** *** Python values *)

(** [not x] for [x] a string or [None]. *)
Definition falsy (x : option string) : bool :=
  match x with
  | None => true
  | Some s => String.eqb s EmptyString
  end.

(** [str(x)] for [x] a string or [None]. *)
Definition str (x : option string) : string := default "None" x.

(** [key in d] *)
Definition contains (d : gmap string Q) (key : option string) : bool :=
  match key with
  | Some k => bool_decide (is_Some (d !! k))
  | None => false
  end.

(** [d.get(key, 0)] *)
Definition get_or_zero (d : gmap string Q) (key : option string) : Q :=
  match key with
  | Some k => default 0%Q (d !! k)
  | None => 0%Q
  end.

(** [d[key]], paired with the key found. *)
Definition getitem (d : gmap string Q) (key : option string) : M (string * Q) :=
  match key with
  | Some k =>
      match d !! k with
      | Some v => ret (k, v)
      | None => raise (KeyError key)
      end
  | None => raise (KeyError key)
  end.

Definition re_anchored (r : Re.regex) (x : option string) : bool :=
  match x with
  | Some s => Re.anchored_match r s
  | None => false
  end.

Definition re_match (r : Re.regex) (x : option string) : bool :=
  match x with
  | Some s => Re.prefix_match r s
  | None => false
  end.

(** [len(x) != n] for a truthy [x]. *)
Definition len_differs (x : option string) (n : nat) : bool :=
  match x with
  | Some s => negb (Nat.eqb (String.length s) n)
  | None => true
  end.

(** ** Discounts *)

Inductive Discount : Type :=
| PercentageDiscount (percentage : Q)
| FixedAmountDiscount (discount_amount : Q).

Definition calculate_discount (d : Discount) (amount : Q) : Q :=
  match d with
  | PercentageDiscount percentage => (amount * (percentage / 100))%Q
  | FixedAmountDiscount discount_amount => discount_amount
  end.

(** ** Payment methods *)

Module CreditCardPayment.

(** [CreditCardPayment()] *)
Definition init : M nat :=
  new (CreditCard {[ "1234567891234567" := 500%Q ]}).

(** [self.approved_cards] *)
Definition approved_cards (self : nat) : M (gmap string Q) :=
  pm <- load self ;;
  match pm with
  | CreditCard d => ret d
  | _ => raise AttributeError
  end.

Definition validate (self : nat) (payment_details : gmap string string) : M bool :=
  let card_number := payment_details !! "card_number" in
  let expiry_date := payment_details !! "expiry_date" in
  let cvv := payment_details !! "cvv" in
  if falsy card_number || negb (re_anchored Re.card_number_re card_number) then
    print "Invalid Credit Card number" ;; ret false
  else if falsy expiry_date || negb (re_anchored Re.expiry_date_re expiry_date) then
    print "Invalid expiry date" ;; ret false
  else if falsy cvv || negb (re_anchored Re.cvv_re cvv) then
    print "Invalid CVV" ;; ret false
  else
    cards <- approved_cards self ;;
    if negb (contains cards card_number) then
      print "Card number not approved" ;; ret false
    else
      print "Credit Card details are valid." ;; ret true.

Definition check_balance (self : nat) (payment_details : gmap string string)
    (amount : Q) : M bool :=
  let card_number := payment_details !! "card_number" in
  cards <- approved_cards self ;;
  if contains cards card_number then
    cards <- approved_cards self ;;
    kv <- getitem cards card_number ;;
    ret (Qgeb (snd kv) amount)
  else ret false.

Definition process_payment (self : nat) (amount : Q)
    (payment_details : gmap string string) : M bool :=
  let card_number := payment_details !! "card_number" in
  enough <- check_balance self payment_details amount ;;
  if negb enough then
    print ("Not enough money for " +:+ str card_number) ;; ret false
  else
    cards <- approved_cards self ;;
    kv <- getitem cards card_number ;;
    store self (CreditCard (<[fst kv := (snd kv - amount)%Q]> cards)) ;;
    print ("Processing Credit Card payment of $" +:+ Fmt.fixed2 amount) ;;
    ret true.

Definition get_discount (self : nat) : M Discount :=
  ret (FixedAmountDiscount 30).

End CreditCardPayment.

Module PayPalPayment.

(** [PayPalPayment()] *)
Definition init : M nat :=
  new (PayPal (<["Rand@gmail.com" := 500%Q]> {[ "Sama@gmail.com" := 1000%Q ]})).

(** [self.approved_emails] *)
Definition approved_emails (self : nat) : M (gmap string Q) :=
  pm <- load self ;;
  match pm with
  | PayPal d => ret d
  | _ => raise AttributeError
  end.

Definition validate (self : nat) (payment_details : gmap string string) : M bool :=
  let email := payment_details !! "email" in
  if falsy email || negb (re_match Re.email_re email) then
    print "Invalid PayPal email" ;; ret false
  else
    emails <- approved_emails self ;;
    if negb (contains emails email) then
      print "Email not approved for PayPal" ;; ret false
    else
      print "PayPal details are valid." ;; ret true.

Definition check_balance (self : nat) (payment_details : gmap string string)
    (amount : Q) : M bool :=
  let email := payment_details !! "email" in
  emails <- approved_emails self ;;
  ret (Qgeb (get_or_zero emails email) amount).

Definition process_payment (self : nat) (amount : Q)
    (payment_details : gmap string string) : M bool :=
  let email := payment_details !! "email" in
  enough <- check_balance self payment_details amount ;;
  if negb enough then
    print ("Not enough money for " +:+ str email) ;; ret false
  else
    emails <- approved_emails self ;;
    kv <- getitem emails email ;;
    store self (PayPal (<[fst kv := (snd kv - amount)%Q]> emails)) ;;
    print ("Processing PayPal payment of $" +:+ Fmt.fixed2 amount +:+ "...") ;;
    print ("PayPal payment of $" +:+ Fmt.fixed2 amount +:+ " was successful.") ;;
    ret true.

Definition get_discount (self : nat) : M Discount :=
  ret (PercentageDiscount 10).

End PayPalPayment.

Module CryptocurrencyPayment.

(** [CryptocurrencyPayment()] *)
Definition init : M nat :=
  new (Cryptocurrency {[ "1BoatSLRHtKNngkdXEeobR76b53LETtpyT" := 1000%Q ]}).

(** [self.mock_wallets] *)
Definition mock_wallets (self : nat) : M (gmap string Q) :=
  pm <- load self ;;
  match pm with
  | Cryptocurrency d => ret d
  | _ => raise AttributeError
  end.

Definition validate (self : nat) (payment_details : gmap string string) : M bool :=
  let wallet_address := payment_details !! "wallet_address" in
  if falsy wallet_address || len_differs wallet_address 34 then
    print "Invalid Cryptocurrency wallet address" ;; ret false
  else
    wallets <- mock_wallets self ;;
    if negb (contains wallets wallet_address) then
      print "Wallet address not found" ;; ret false
    else
      print "Cryptocurrency wallet details are valid." ;; ret true.

Definition check_balance (self : nat) (payment_details : gmap string string)
    (amount : Q) : M bool :=
  let wallet_address := payment_details !! "wallet_address" in
  wallets <- mock_wallets self ;;
  ret (Qgeb (get_or_zero wallets wallet_address) amount).

Definition process_payment (self : nat) (amount : Q)
    (payment_details : gmap string string) : M bool :=
  let wallet_address := payment_details !! "wallet_address" in
  enough <- check_balance self payment_details amount ;;
  if negb enough then
    print ("Not enough money for " +:+ str wallet_address) ;; ret false
  else
    wallets <- mock_wallets self ;;
    kv <- getitem wallets wallet_address ;;
    store self (Cryptocurrency (<[fst kv := (snd kv - amount)%Q]> wallets)) ;;
    print ("Processing Cryptocurrency payment of $" +:+ Fmt.fixed2 amount +:+ "...") ;;
    print ("Cryptocurrency payment of $" +:+ Fmt.fixed2 amount +:+ " was successful.") ;;
    ret true.

Definition get_discount (self : nat) : M Discount :=
  ret (PercentageDiscount 20).

End CryptocurrencyPayment.

(** *** Method calls on a reference: the class of the object decides *)

Definition validate (pm : nat) (payment_details : gmap string string) : M bool :=
  obj <- load pm ;;
  match obj with
  | CreditCard _ => CreditCardPayment.validate pm payment_details
  | PayPal _ => PayPalPayment.validate pm payment_details
  | Cryptocurrency _ => CryptocurrencyPayment.validate pm payment_details
  end.

Definition check_balance (pm : nat) (payment_details : gmap string string)
    (amount : Q) : M bool :=
  obj <- load pm ;;
  match obj with
  | CreditCard _ => CreditCardPayment.check_balance pm payment_details amount
  | PayPal _ => PayPalPayment.check_balance pm payment_details amount
  | Cryptocurrency _ => CryptocurrencyPayment.check_balance pm payment_details amount
  end.

Definition process_payment (pm : nat) (amount : Q)
    (payment_details : gmap string string) : M bool :=
  obj <- load pm ;;
  match obj with
  | CreditCard _ => CreditCardPayment.process_payment pm amount payment_details
  | PayPal _ => PayPalPayment.process_payment pm amount payment_details
  | Cryptocurrency _ => CryptocurrencyPayment.process_payment pm amount payment_details
  end.

Definition get_discount (pm : nat) : M Discount :=
  obj <- load pm ;;
  match obj with
  | CreditCard _ => CreditCardPayment.get_discount pm
  | PayPal _ => PayPalPayment.get_discount pm
  | Cryptocurrency _ => CryptocurrencyPayment.get_discount pm
  end.

Definition class_of (obj : PaymentMethod) : string :=
  match obj with
  | CreditCard _ => "CreditCardPayment"
  | PayPal _ => "PayPalPayment"
  | Cryptocurrency _ => "CryptocurrencyPayment"
  end.

(** [pm.__class__.__name__] *)
Definition class_name (pm : nat) : M string :=
  obj <- load pm ;; ret (class_of obj).

(** ** Orders *)

Record Order : Type := mkOrder {
  items : list string;
  quantities : list Z;
  prices : list Q;
  status : string;
  payment_method : option nat;
  discount_strategy : option Discount
}.

(** [Order()] *)
Definition new_order : Order := mkOrder [] [] [] "open" None None.

Definition add_item (self : Order) (name : string) (quantity : Z) (price : Q) : Order :=
  mkOrder (items self ++ [name]) (quantities self ++ [quantity]) (prices self ++ [price])
    (status self) (payment_method self) (discount_strategy self).

Fixpoint zip (qs : list Z) (ps : list Q) : list (Z * Q) :=
  match qs, ps with
  | q :: qs', p :: ps' => (q, p) :: zip qs' ps'
  | _, _ => []
  end.

Definition total_price (self : Order) : Q :=
  fold_left (fun total qp => (total + inject_Z (fst qp) * snd qp)%Q)
    (zip (quantities self) (prices self)) 0%Q.

Definition set_payment_method (self : Order) (pm : nat) : Order :=
  mkOrder (items self) (quantities self) (prices self) (status self)
    (Some pm) (discount_strategy self).

Definition set_discount_strategy (self : Order) (d : Discount) : Order :=
  mkOrder (items self) (quantities self) (prices self) (status self)
    (payment_method self) (Some d).

Definition set_status (self : Order) (s : string) : Order :=
  mkOrder (items self) (quantities self) (prices self) s
    (payment_method self) (discount_strategy self).

Definition apply_discounts (self : Order) : Q :=
  match discount_strategy self with
  | Some d => calculate_discount d (total_price self)
  | None => 0%Q
  end.

(** The amount [pay] hands to [process_payment]. *)
Definition final_amount (self : Order) : Q :=
  let discount := apply_discounts self in
  let final_amount := (total_price self - discount)%Q in
  if Qltb final_amount 0 then 0%Q else final_amount.

(** [pay] returns its result together with the order as it leaves it. *)
Definition pay (self : Order) (payment_details : gmap string string) : M (bool * Order) :=
  match payment_method self with
  | None => ret (true, self)
  | Some pm =>
      valid <- validate pm payment_details ;;
      if valid then
        charged <- process_payment pm (final_amount self) payment_details ;;
        if charged then ret (true, set_status self "paid")
        else ret (false, self)
      else ret (false, self)
  end.

(** ** Transaction loggers *)

(** [logging.basicConfig(filename=..., level=logging.INFO, ...)]: does
    nothing when the root logger is configured already; otherwise the
    file is opened for appending, which creates it when it does not
    exist, and the level of the root logger is set. *)
Definition basicConfig (filename : string) : M unit :=
  fun w => match log_sink w with
           | Unconfigured =>
               (Ok tt,
                with_files (<[filename := default [] (files w !! filename)]> (files w))
                  (with_log_sink (File filename INFO) w))
           | _ => (Ok tt, w)
           end.

(** [logging.info(message)]: a root logger that was never configured is
    set up on the standard error stream at level WARNING, and drops the
    record; a root logger on a file writes the record when its level
    lets records of level INFO through. *)
Definition logging_info (message : string) : M unit :=
  fun w => match log_sink w with
           | Unconfigured => (Ok tt, with_log_sink Stderr w)
           | Stderr => (Ok tt, w)
           | File f level =>
               if (level <=? INFO)%Z then
                 (Ok tt,
                  with_files (<[f := (default [] (files w !! f) ++ [message])%list]> (files w)) w)
               else (Ok tt, w)
           end.

Module FileLogger.

Record t : Type := mk { filename : string }.

Definition init (filename : string) : M t :=
  basicConfig filename ;; ret (mk filename).

(** The f-string of [log_transaction], [stamp] being the time. *)
Definition log_message (stamp payment_method : string) (amount : Q) (success : bool)
    : string :=
  let status := if success then "Success" else "Failure" in
  stamp +:+ ": " +:+ payment_method +:+ " payment of $" +:+ Fmt.fixed2 amount
        +:+ " - " +:+ status.

Definition log_transaction (self : t) (payment_method : string) (amount : Q)
    (success : bool) : M unit :=
  stamp <- now ;;
  logging_info (log_message stamp payment_method amount success).

End FileLogger.

Module TransactionLogger.

(** [TransactionLogger(...)]: the class is abstract. *)
Definition init (filename : string) : M FileLogger.t := raise TypeError.

End TransactionLogger.

(** ** The checkout driver *)

(** The part of [main] after the payment method is chosen.  Every
    [get_discount] returns a discount object, which is truthy, so the
    strategy is always set; [isinstance] looks at the class of the object. *)
Definition checkout (order : Order) (payment_method : option nat) : M unit :=
  match payment_method with
  | Some pm =>
      let order := set_payment_method order pm in
      discount_strategy <- get_discount pm ;;
      let order := set_discount_strategy order discount_strategy in
      obj <- load pm ;;
      payment_details <-
        match obj with
        | CreditCard _ =>
            card_number <- input ;;
            expiry_date <- input ;;
            cvv <- input ;;
            ret (<["card_number" := card_number]>
                   (<["expiry_date" := expiry_date]> ({[ "cvv" := cvv ]} : gmap string string)))
        | PayPal _ =>
            email <- input ;;
            ret ({[ "email" := email ]} : gmap string string)
        | Cryptocurrency _ =>
            wallet_address <- input ;;
            ret ({[ "wallet_address" := wallet_address ]} : gmap string string)
        end ;;
      paid <- pay order payment_details ;;
      let success := fst paid in
      let order := snd paid in
      logger <- FileLogger.init "transactions.log" ;;
      name <- class_name pm ;;
      let payment_method_name := Str.replace "Payment" EmptyString name in
      FileLogger.log_transaction logger payment_method_name (total_price order) success ;;
      if success then print "Payment successful!" else print "Payment failed."
  | None =>
      name <- input ;;
      address <- input ;;
      let payment_details : gmap string string :=
        <["name" := name]> {[ "address" := address ]} in
      print "Cash payment does not include any discount." ;;
      paid <- pay order payment_details ;;
      let success := fst paid in
      let order := snd paid in
      logger <- TransactionLogger.init "transactions.log" ;;
      FileLogger.log_transaction logger "cash" (total_price order) success ;;
      print "Payment successful!"
  end.

(** The order after the loop that reads the items. *)
Definition enter_items (entries : list (string * Z * Q)) : Order :=
  fold_left (fun o e => add_item o (fst (fst e)) (snd (fst e)) (snd e)) entries new_order.

(** [main()].  [entries] are the rows typed before ['done'], after
    [int(...)] and [float(...)]; the lines typed from the payment-method
    choice on are read from [stdin]. *)
Definition main (entries : list (string * Z * Q)) : M unit :=
  print "Welcome to the Payment System" ;;
  let order := enter_items entries in
  print "Choose a payment method:" ;;
  print "1. Credit Card" ;;
  print "2. PayPal" ;;
  print "3. Cryptocurrency" ;;
  print "4. Cash" ;;
  method_choice <- input ;;
  if String.eqb method_choice "1" then
    pm <- CreditCardPayment.init ;; checkout order (Some pm)
  else if String.eqb method_choice "2" then
    pm <- PayPalPayment.init ;; checkout order (Some pm)
  else if String.eqb method_choice "3" then
    pm <- CryptocurrencyPayment.init ;; checkout order (Some pm)
  else if String.eqb method_choice "4" then
    checkout order None
  else
    print "Invalid choice.".

(** ** Runs on concrete inputs *)

Definition fresh_world (typed : list string) (time : string) : World :=
  mkWorld ∅ typed [] time Unconfigured ∅.

(** Scenario 1 of the checkout: one item, quantity 2 at 25.00, paid with
    the approved credit card. *)
Definition scenario1 : World :=
  fresh_world ["1"; "1234567891234567"; "11/25"; "123"] "2024-01-01 12:00:00.000000".

Definition scenario1_entries : list (string * Z * Q) := [("book", 2, 25%Q)].


(** ** What the methods compute, as functions of the object *)

Definition ledger (obj : PaymentMethod) : gmap string Q :=
  match obj with
  | CreditCard d | PayPal d | Cryptocurrency d => d
  end.

Definition set_ledger (obj : PaymentMethod) (d : gmap string Q) : PaymentMethod :=
  match obj with
  | CreditCard _ => CreditCard d
  | PayPal _ => PayPal d
  | Cryptocurrency _ => Cryptocurrency d
  end.

Definition balance_of (w : World) (pm : nat) (key : string) : option Q :=
  match heap w !! pm with
  | Some obj => ledger obj !! key
  | None => None
  end.

(** The field of the details that names the account. *)
Definition account (obj : PaymentMethod) (details : gmap string string) : option string :=
  match obj with
  | CreditCard _ => details !! "card_number"
  | PayPal _ => details !! "email"
  | Cryptocurrency _ => details !! "wallet_address"
  end.

(** The shape the fields must have. *)
Definition well_formed (obj : PaymentMethod) (details : gmap string string) : bool :=
  match obj with
  | CreditCard _ =>
      negb (falsy (details !! "card_number")
            || negb (re_anchored Re.card_number_re (details !! "card_number")))
      && negb (falsy (details !! "expiry_date")
               || negb (re_anchored Re.expiry_date_re (details !! "expiry_date")))
      && negb (falsy (details !! "cvv") || negb (re_anchored Re.cvv_re (details !! "cvv")))
  | PayPal _ =>
      negb (falsy (details !! "email") || negb (re_match Re.email_re (details !! "email")))
  | Cryptocurrency _ =>
      negb (falsy (details !! "wallet_address")
            || len_differs (details !! "wallet_address") 34)
  end.

Definition valid (obj : PaymentMethod) (details : gmap string string) : bool :=
  well_formed obj details && contains (ledger obj) (account obj details).

(** The line [validate] prints. *)
Definition verdict (obj : PaymentMethod) (details : gmap string string) : string :=
  match obj with
  | CreditCard d =>
      if falsy (details !! "card_number")
         || negb (re_anchored Re.card_number_re (details !! "card_number"))
      then "Invalid Credit Card number"
      else if falsy (details !! "expiry_date")
              || negb (re_anchored Re.expiry_date_re (details !! "expiry_date"))
      then "Invalid expiry date"
      else if falsy (details !! "cvv") || negb (re_anchored Re.cvv_re (details !! "cvv"))
      then "Invalid CVV"
      else if negb (contains d (details !! "card_number")) then "Card number not approved"
      else "Credit Card details are valid."
  | PayPal d =>
      if falsy (details !! "email") || negb (re_match Re.email_re (details !! "email"))
      then "Invalid PayPal email"
      else if negb (contains d (details !! "email")) then "Email not approved for PayPal"
      else "PayPal details are valid."
  | Cryptocurrency d =>
      if falsy (details !! "wallet_address") || len_differs (details !! "wallet_address") 34
      then "Invalid Cryptocurrency wallet address"
      else if negb (contains d (details !! "wallet_address")) then "Wallet address not found"
      else "Cryptocurrency wallet details are valid."
  end.

(** The answer of [check_balance]. *)
Definition sufficient (obj : PaymentMethod) (details : gmap string string) (amount : Q) : bool :=
  match obj with
  | CreditCard d =>
      contains d (details !! "card_number")
      && Qgeb (get_or_zero d (details !! "card_number")) amount
  | PayPal d => Qgeb (get_or_zero d (details !! "email")) amount
  | Cryptocurrency d => Qgeb (get_or_zero d (details !! "wallet_address")) amount
  end.

(** The object after [amount] is taken from the account named in the details. *)
Definition charge (obj : PaymentMethod) (details : gmap string string) (amount : Q)
    : PaymentMethod :=
  match account obj details with
  | Some k =>
      match ledger obj !! k with
      | Some b => set_ledger obj (<[k := (b - amount)%Q]> (ledger obj))
      | None => obj
      end
  | None => obj
  end.

(** The lines [process_payment] prints when it charges. *)
Definition receipt (obj : PaymentMethod) (amount : Q) : list string :=
  match obj with
  | CreditCard _ => ["Processing Credit Card payment of $" +:+ Fmt.fixed2 amount]
  | PayPal _ =>
      ["Processing PayPal payment of $" +:+ Fmt.fixed2 amount +:+ "...";
       "PayPal payment of $" +:+ Fmt.fixed2 amount +:+ " was successful."]
  | Cryptocurrency _ =>
      ["Processing Cryptocurrency payment of $" +:+ Fmt.fixed2 amount +:+ "...";
       "Cryptocurrency payment of $" +:+ Fmt.fixed2 amount +:+ " was successful."]
  end.

Definition say (lines : list string) (w : World) : World :=
  with_stdout (stdout w ++ lines) w.

(** The outcome of [process_payment] on the object [obj] stored at [pm]. *)
Definition process_payment_outcome (pm : nat) (obj : PaymentMethod) (amount : Q)
    (details : gmap string string) (w : World) : Res bool * World :=
  if sufficient obj details amount then
    if contains (ledger obj) (account obj details) then
      (Ok true,
       say (receipt obj amount) (with_heap (<[pm := charge obj details amount]> (heap w)) w))
    else (Raise (KeyError (account obj details)), w)
  else (Ok false, say ["Not enough money for " +:+ str (account obj details)] w).

(** A run of [pay] calls, one after the other, on orders that may share
    their payment methods; a call that raises leaves its effects. *)
Definition pay_all (calls : list (Order * gmap string string)) (w : World) : World :=
  fold_left (fun w' call => snd (pay (fst call) (snd call) w')) calls w.

(** Every balance of every ledger is at least zero. *)
Definition ledger_nonneg (w : World) : Prop :=
  map_Forall (fun _ obj => map_Forall (fun _ b => (0 <= b)%Q) (ledger obj)) (heap w).

(** ** The driver, as functions of the choice *)

(** The discount object each class hands out. *)
Definition discount_of (obj : PaymentMethod) : Discount :=
  match obj with
  | CreditCard _ => FixedAmountDiscount 30
  | PayPal _ => PercentageDiscount 10
  | Cryptocurrency _ => PercentageDiscount 20
  end.

(** The number of lines the driver reads for the details. *)
Definition fields_read (obj : PaymentMethod) : nat :=
  match obj with
  | CreditCard _ => 3
  | PayPal _ | Cryptocurrency _ => 1
  end.

(** The details the driver builds from the lines typed. *)
Definition details_typed (obj : PaymentMethod) (typed : list string) : gmap string string :=
  match obj, typed with
  | CreditCard _, a :: b :: c :: _ =>
      <["card_number" := a]> (<["expiry_date" := b]> {[ "cvv" := c ]})
  | PayPal _, a :: _ => {[ "email" := a ]}
  | Cryptocurrency _, a :: _ => {[ "wallet_address" := a ]}
  | _, _ => ∅
  end.

(** The label of the log line for each choice of the menu. *)
Definition label_of_choice (choice : string) : string :=
  if String.eqb choice "1" then "CreditCard"
  else if String.eqb choice "2" then "PayPal"
  else "Cryptocurrency".

(** The object each choice of the menu creates. *)
Definition created_by (choice : string) : PaymentMethod :=
  if String.eqb choice "1" then CreditCard {[ "1234567891234567" := 500%Q ]}
  else if String.eqb choice "2" then
    PayPal (<["Rand@gmail.com" := 500%Q]> {[ "Sama@gmail.com" := 1000%Q ]})
  else Cryptocurrency {[ "1BoatSLRHtKNngkdXEeobR76b53LETtpyT" := 1000%Q ]}.

Definition transactions_log : string := "transactions.log".

(** The files after [line] is added to the transaction log. *)
Definition logged (line : string) (fs : gmap string (list string))
    : gmap string (list string) :=
  <[transactions_log := (default [] (fs !! transactions_log) ++ [line])%list]> fs.

(** ** Worlds, orders and details for the runs *)

Definition approved_card : string := "1234567891234567".

Definition details_of_card : gmap string string :=
  <["card_number" := "1234567891234567"]>
    (<["expiry_date" := "11/25"]> {[ "cvv" := "123" ]}).

(** A world that holds one credit-card method, at location 0. *)
Definition card_world : World :=
  with_heap {[ 0%nat := CreditCard {[ "1234567891234567" := 500%Q ]} ]} (fresh_world [] EmptyString).

Definition card_order : Order :=
  set_discount_strategy
    (set_payment_method (add_item new_order "book" 2 (25%Q)) 0%nat)
    (FixedAmountDiscount 30).

Definition discounted_order : Order :=
  set_discount_strategy (add_item new_order "pen" 2 (10%Q)) (FixedAmountDiscount 30).

(** A world that holds one PayPal method, at location 0. *)
Definition paypal_world : World :=
  with_heap
    {[ 0%nat := PayPal (<["Rand@gmail.com" := 500%Q]> {[ "Sama@gmail.com" := 1000%Q ]}) ]}
    (fresh_world [] EmptyString).

(** A world that holds a credit-card method at location 0 and a PayPal
    method at location 1. *)
Definition two_methods_world : World :=
  with_heap
    (<[0%nat := CreditCard {[ "1234567891234567" := 500%Q ]}]>
       {[ 1%nat :=
            PayPal (<["Rand@gmail.com" := 500%Q]> {[ "Sama@gmail.com" := 1000%Q ]}) ]})
    (fresh_world [] EmptyString).

Definition stranger : gmap string string := {[ "email" := "nobody@example.org" ]}.

(** The order of scenario 1 when [pay] is called. *)
Definition scenario1_order : Order :=
  set_discount_strategy
    (set_payment_method (enter_items scenario1_entries) 0%nat) (FixedAmountDiscount 30).

(** ** Notions used to state further properties *)

(** The three lists of an order have the same length. *)
Definition aligned (o : Order) : Prop :=
  length (items o) = length (quantities o) /\ length (quantities o) = length (prices o).

(** Quantity times price of the rows typed, added up from 0 in the order
    in which they were typed. *)
Definition rows_total (entries : list (string * Z * Q)) : Q :=
  fold_left (fun total e => (total + inject_Z (snd (fst e)) * snd e)%Q) entries 0%Q.

(** [FileLogger(filename).log_transaction(label, amount, success)] *)
Definition log_once (filename label : string) (amount : Q) (success : bool) : M unit :=
  logger <- FileLogger.init filename ;;
  FileLogger.log_transaction logger label amount success.

(** The lines of a file, a file that does not exist having none. *)
Definition lines_of (fs : gmap string (list string)) (filename : string) : list string :=
  default [] (fs !! filename).

(** Two stores with the same objects, of the same classes, with the same
    accounts in their ledgers. *)
Definition same_accounts (h h' : gmap nat PaymentMethod) : Prop :=
  forall pm : nat,
    match h !! pm, h' !! pm with
    | Some obj, Some obj' =>
        class_of obj' = class_of obj /\ dom (ledger obj') = dom (ledger obj)
    | None, None => True
    | _, _ => False
    end.

(** *** Shapes of strings *)

Fixpoint all_chars (p : ascii -> bool) (s : string) : bool :=
  match s with
  | EmptyString => true
  | String c s' => p c && all_chars p s'
  end.

(** Exactly [n] characters, all of them digits. *)
Definition digits (n : nat) (s : string) : Prop :=
  String.length s = n /\ all_chars Re.digit s = true.

Definition newline : string := String "010"%char EmptyString.

(** [s] has the shape [P], or has it once a final newline is taken off. *)
Definition maybe_newline (P : string -> Prop) (s : string) : Prop :=
  P s \/ exists body : string, s = body +:+ newline /\ P body.

(** Two digits, a slash, two digits. *)
Definition expiry_shape (s : string) : Prop :=
  exists a b : string, s = a +:+ "/" +:+ b /\ digits 2 a /\ digits 2 b.

(** A non-empty string without [@]. *)
Definition part (s : string) : Prop :=
  s <> EmptyString /\ all_chars Re.not_at s = true.

(** A string that starts with [local@domain.tld], whatever follows. *)
Definition email_shape (e : string) : Prop :=
  exists a b c rest : string,
    e = a +:+ "@" +:+ b +:+ "." +:+ c +:+ rest /\ part a /\ part b /\ part c.

(** The words of a regular expression. *)
Inductive lang : Re.regex -> string -> Prop :=
| lang_eps : lang Re.Eps EmptyString
| lang_class (p : ascii -> bool) (c : ascii) :
    p c = true -> lang (Re.Class p) (String c EmptyString)
| lang_seq (r1 r2 : Re.regex) (s1 s2 : string) :
    lang r1 s1 -> lang r2 s2 -> lang (Re.Seq r1 r2) (s1 +:+ s2)
| lang_alt_l (r1 r2 : Re.regex) (s : string) : lang r1 s -> lang (Re.Alt r1 r2) s
| lang_alt_r (r1 r2 : Re.regex) (s : string) : lang r2 s -> lang (Re.Alt r1 r2) s
| lang_star_nil (r : Re.regex) : lang (Re.Star r) EmptyString
| lang_star_more (r : Re.regex) (s1 s2 : string) :
    lang r s1 -> lang (Re.Star r) s2 -> lang (Re.Star r) (s1 +:+ s2).

(** ** Checks of the rendering and of the patterns *)

Example fixed2_50 : Fmt.fixed2 50 = "50.00".
Proof. vm_compute. reflexivity. Qed.

Example fixed2_eighth : Fmt.fixed2 (1 # 8) = "0.12".
Proof. vm_compute. reflexivity. Qed.

Example replace_class_name : Str.replace "Payment" EmptyString "CreditCardPayment" = "CreditCard".
Proof. vm_compute. reflexivity. Qed.

Example card_re_ok : Re.anchored_match Re.card_number_re "1234567891234567" = true.
Proof. vm_compute. reflexivity. Qed.

Example email_re_ok : Re.prefix_match Re.email_re "Rand@gmail.com" = true.
Proof. vm_compute. reflexivity. Qed.

Example email_re_ko : Re.prefix_match Re.email_re "Rand@gmailcom" = false.
Proof. vm_compute. reflexivity. Qed.

(** ** Lemmas on the methods *)

Section Methods.

Variables (pm : nat) (obj : PaymentMethod) (w : World).
Hypothesis Hobj : heap w !! pm = Some obj.

Lemma contains_get (d : gmap string Q) (key : option string) :
  contains d key = true ->
  exists k b, key = Some k /\ d !! k = Some b /\ get_or_zero d key = b.
Proof.
  destruct key as [k|]; simpl; [|discriminate].
  intros H. apply bool_decide_eq_true in H. destruct H as [b Hb].
  exists k, b. rewrite Hb. auto.
Qed.

Lemma contains_false (d : gmap string Q) (key : option string) :
  contains d key = false -> getitem d key = raise (KeyError key).
Proof.
  destruct key as [k|]; simpl; [|reflexivity].
  intros H. apply bool_decide_eq_false in H.
  destruct (d !! k) eqn:E; [|reflexivity].
  exfalso. apply H. eauto.
Qed.

Lemma validate_spec (details : gmap string string) :
  validate pm details w = (Ok (valid obj details), say [verdict obj details] w).
Proof using Hobj.
  unfold validate, valid, bind, load. rewrite Hobj.
  destruct obj as [d|d|d]; simpl;
    unfold CreditCardPayment.validate, PayPalPayment.validate,
      CryptocurrencyPayment.validate, CreditCardPayment.approved_cards,
      PayPalPayment.approved_emails, CryptocurrencyPayment.mock_wallets,
      bind, load, print, ret, say;
    repeat match goal with
           | |- context [if ?c || ?e then _ else _] => destruct (c || e); simpl; try reflexivity
           end;
    rewrite ?Hobj; simpl;
    repeat match goal with
           | |- context [contains ?a ?b] => destruct (contains a b); simpl; try reflexivity
           end.
Qed.

Lemma check_balance_spec (details : gmap string string) (amount : Q) :
  check_balance pm details amount w = (Ok (sufficient obj details amount), w).
Proof using Hobj.
  unfold check_balance, bind, load. rewrite Hobj.
  destruct obj as [d|d|d]; simpl;
    unfold CreditCardPayment.check_balance, PayPalPayment.check_balance,
      CryptocurrencyPayment.check_balance, CreditCardPayment.approved_cards,
      PayPalPayment.approved_emails, CryptocurrencyPayment.mock_wallets,
      bind, load, ret; rewrite Hobj; simpl; try reflexivity.
  destruct (contains d (details !! "card_number")) eqn:E; simpl; [|reflexivity].
  rewrite Hobj. simpl.
  destruct (contains_get _ _ E) as (k & b & Hk & Hb & Hg).
  rewrite Hg, Hk. unfold getitem. rewrite Hb. reflexivity.
Qed.

End Methods.

Lemma process_payment_spec (pm : nat) (obj : PaymentMethod) (w : World)
    (amount : Q) (details : gmap string string) :
  heap w !! pm = Some obj ->
  process_payment pm amount details w = process_payment_outcome pm obj amount details w.
Proof.
  intros Hobj.
  assert (Hcb := fun a => check_balance_spec pm obj w Hobj details a).
  unfold process_payment, process_payment_outcome, bind, load. rewrite Hobj.
  unfold check_balance, bind, load in Hcb. rewrite Hobj in Hcb.
  destruct obj as [d|d|d]; simpl in *;
    unfold CreditCardPayment.process_payment, PayPalPayment.process_payment,
      CryptocurrencyPayment.process_payment, bind;
    rewrite Hcb;
    match goal with
    | |- context [negb ?c] => destruct c eqn:Hs; simpl; [|reflexivity]
    end;
    unfold CreditCardPayment.approved_cards, PayPalPayment.approved_emails,
      CryptocurrencyPayment.mock_wallets, bind, load, ret;
    rewrite Hobj; simpl;
    match goal with
    | |- context [getitem d ?key] =>
        destruct (contains d key) eqn:Hc;
        [ destruct (contains_get _ _ Hc) as (k & b & Hk & Hb & _);
          unfold charge, getitem; simpl; rewrite Hk, Hb;
          unfold ret, store, print, say, with_stdout, with_heap; simpl;
          rewrite <- ?app_assoc; reflexivity
        | rewrite (contains_false _ _ Hc); reflexivity ]
    end.
Qed.

Lemma valid_contains (obj : PaymentMethod) (details : gmap string string) :
  valid obj details = true -> contains (ledger obj) (account obj details) = true.
Proof. unfold valid. intros H. apply andb_true_iff in H. tauto. Qed.

(** The outcome of [pay] for an order whose method is the object [obj]
    stored at [pm]. *)
Lemma pay_spec (self : Order) (pm : nat) (obj : PaymentMethod) (w : World)
    (details : gmap string string) :
  payment_method self = Some pm ->
  heap w !! pm = Some obj ->
  pay self details w =
    if valid obj details then
      if sufficient obj details (final_amount self) then
        (Ok (true, set_status self "paid"),
         say (receipt obj (final_amount self))
           (with_heap (<[pm := charge obj details (final_amount self)]> (heap w))
              (say [verdict obj details] w)))
      else
        (Ok (false, self),
         say ["Not enough money for " +:+ str (account obj details)]
           (say [verdict obj details] w))
    else (Ok (false, self), say [verdict obj details] w).
Proof.
  intros Hpm Hobj. unfold pay. rewrite Hpm. unfold bind.
  rewrite (validate_spec pm obj w Hobj).
  destruct (valid obj details) eqn:Hv; [|reflexivity].
  rewrite (process_payment_spec pm obj); [|exact Hobj].
  unfold process_payment_outcome.
  destruct (sufficient obj details (final_amount self)); [|reflexivity].
  simpl. rewrite (valid_contains _ _ Hv). reflexivity.
Qed.

Lemma sufficient_inv (obj : PaymentMethod) (details : gmap string string) (amount : Q) :
  sufficient obj details amount = true ->
  contains (ledger obj) (account obj details) = true ->
  exists k b,
    account obj details = Some k /\ ledger obj !! k = Some b /\ (amount <= b)%Q /\
    charge obj details amount = set_ledger obj (<[k := (b - amount)%Q]> (ledger obj)).
Proof.
  intros Hs Hc.
  destruct (contains_get _ _ Hc) as (k & b & Hk & Hb & Hg).
  exists k, b. unfold charge. rewrite Hk, Hb. repeat split; try reflexivity.
  apply Qle_bool_iff.
  destruct obj as [d|d|d]; simpl in *; unfold Qgeb in Hs; rewrite Hg in Hs;
    [apply andb_true_iff in Hs; tauto | exact Hs | exact Hs].
Qed.

Lemma ledger_set_ledger (obj : PaymentMethod) (d : gmap string Q) :
  ledger (set_ledger obj d) = d.
Proof. destruct obj; reflexivity. Qed.

Lemma pay_dangling (self : Order) (pm : nat) (details : gmap string string) (w : World) :
  payment_method self = Some pm -> heap w !! pm = None ->
  pay self details w = (Raise AttributeError, w).
Proof.
  intros Hpm Hnone. unfold pay, validate, bind, load. rewrite Hpm, Hnone. reflexivity.
Qed.

Lemma charge_nonneg (obj : PaymentMethod) (details : gmap string string) (amount : Q) :
  sufficient obj details amount = true ->
  contains (ledger obj) (account obj details) = true ->
  map_Forall (fun _ b => (0 <= b)%Q) (ledger obj) ->
  map_Forall (fun _ b => (0 <= b)%Q) (ledger (charge obj details amount)).
Proof.
  intros Hs Hc Hall.
  destruct (sufficient_inv _ _ _ Hs Hc) as (k & b & _ & _ & Hle & ->).
  rewrite ledger_set_ledger. apply map_Forall_insert_2; [|exact Hall].
  lra.
Qed.

Lemma pay_nonneg (self : Order) (details : gmap string string) (w : World) :
  ledger_nonneg w -> ledger_nonneg (snd (pay self details w)).
Proof.
  intros Hinv. unfold ledger_nonneg in *.
  destruct (payment_method self) as [pm|] eqn:Hpm.
  - destruct (heap w !! pm) as [obj|] eqn:Hobj.
    + rewrite (pay_spec self pm obj w details Hpm Hobj).
      destruct (valid obj details) eqn:Hv; [|exact Hinv].
      destruct (sufficient obj details (final_amount self)) eqn:Hs; [|exact Hinv].
      simpl. apply map_Forall_insert_2; [|exact Hinv].
      apply charge_nonneg; [exact Hs | exact (valid_contains _ _ Hv) |].
      exact (Hinv pm obj Hobj).
    + rewrite (pay_dangling self pm details w Hpm Hobj). exact Hinv.
  - unfold pay. rewrite Hpm. exact Hinv.
Qed.

(** A direct call keeps the balances at or above zero as well, whatever
    the amount. *)
Lemma process_payment_nonneg (pm : nat) (amount : Q) (details : gmap string string)
    (w : World) :
  ledger_nonneg w -> ledger_nonneg (snd (process_payment pm amount details w)).
Proof.
  intros Hinv. unfold ledger_nonneg in *.
  destruct (heap w !! pm) as [obj|] eqn:Hobj.
  - rewrite (process_payment_spec pm obj w amount details Hobj).
    unfold process_payment_outcome.
    destruct (sufficient obj details amount) eqn:Hs; [|exact Hinv].
    destruct (contains (ledger obj) (account obj details)) eqn:Hc; [|exact Hinv].
    simpl. apply map_Forall_insert_2; [|exact Hinv].
    apply charge_nonneg; [exact Hs | exact Hc | exact (Hinv pm obj Hobj)].
  - unfold process_payment, bind, load. rewrite Hobj. exact Hinv.
Qed.

Lemma insufficient_of_lt (obj : PaymentMethod) (details : gmap string string)
    (amount : Q) (k : string) (b : Q) :
  account obj details = Some k -> ledger obj !! k = Some b -> (b < amount)%Q ->
  sufficient obj details amount = false.
Proof.
  intros Hk Hb Hlt.
  assert (Hge : Qgeb b amount = false).
  { unfold Qgeb. destruct (Qle_bool amount b) eqn:E; [|reflexivity].
    apply Qle_bool_iff in E. lra. }
  destruct obj as [d|d|d]; simpl in *; rewrite Hk; simpl; rewrite Hb; simpl;
    rewrite Hge; auto using andb_false_r.
Qed.

Lemma final_amount_clamped_aux (self : Order) :
  (0 <= final_amount self)%Q /\
  (final_amount self == Qmax 0 (total_price self - apply_discounts self))%Q.
Proof.
  unfold final_amount, Qltb.
  destruct (Qle_bool 0 (total_price self - apply_discounts self)) eqn:E; simpl.
  - apply Qle_bool_iff in E. split; [exact E|].
    symmetry. apply Q.max_r. exact E.
  - assert (total_price self - apply_discounts self < 0)%Q.
    { apply Qnot_le_lt. intros H. apply Qle_bool_iff in H. congruence. }
    split; [lra|]. symmetry. apply Q.max_l. lra.
Qed.

Lemma pay_no_method (self : Order) (details : gmap string string) (w : World) :
  payment_method self = None -> pay self details w = (Ok (true, self), w).
Proof. intros Hnone. unfold pay. rewrite Hnone. reflexivity. Qed.

Lemma enter_items_no_method (entries : list (string * Z * Q)) :
  payment_method (enter_items entries) = None.
Proof.
  unfold enter_items.
  assert (H : forall o, payment_method
                (fold_left (fun o e => add_item o (fst (fst e)) (snd (fst e)) (snd e))
                   entries o) = payment_method o).
  { induction entries as [|e entries IH]; intros o; simpl; [reflexivity|].
    rewrite IH. reflexivity. }
  rewrite H. reflexivity.
Qed.

Lemma sufficient_of_le (obj : PaymentMethod) (details : gmap string string)
    (amount : Q) (k : string) (b : Q) :
  account obj details = Some k -> ledger obj !! k = Some b -> (amount <= b)%Q ->
  sufficient obj details amount = true /\
  contains (ledger obj) (account obj details) = true.
Proof.
  intros Hk Hb Hle.
  assert (Hge : Qgeb b amount = true) by (apply Qle_bool_iff; exact Hle).
  assert (Hc : contains (ledger obj) (account obj details) = true).
  { rewrite Hk. simpl. apply bool_decide_eq_true. rewrite Hb. eauto. }
  split; [|exact Hc].
  destruct obj as [d|d|d]; simpl in *; rewrite Hk in *; simpl in *; rewrite Hb; simpl;
    rewrite Hge; rewrite ?Hc; reflexivity.
Qed.

(** ** The claims *)

(** C3. An order with no payment method: [pay] returns true at once for
    any details; nothing is printed, no ledger and no file changes, and
    the order comes back as it was, so a status ["open"] stays ["open"]
    and is not set to ["paid"]. *)
Theorem pay_without_method (self : Order) (details : gmap string string) (w : World) :
  payment_method self = None ->
  pay self details w = (Ok (true, self), w).
Proof.
  intros Hnone. apply pay_no_method. exact Hnone.
Qed.

Lemma pay_without_method_witness :
  pay new_order ∅ (fresh_world [] EmptyString) = (Ok (true, new_order), fresh_world [] EmptyString) /\
  status new_order = "open".
Proof.
  split; [|reflexivity].
  exact (pay_without_method new_order ∅ (fresh_world [] EmptyString) eq_refl).
Defined.

(** C4. The amount [pay] hands to [process_payment] is [final_amount]:
    it is never negative, it is the larger of 0 and
    [total_price() - apply_discounts()], and it is 0 when a fixed discount
    exceeds the total. *)
Theorem final_amount_clamped (self : Order) :
  (0 <= final_amount self)%Q /\
  (final_amount self == Qmax 0 (total_price self - apply_discounts self))%Q /\
  (forall a : Q,
      discount_strategy self = Some (FixedAmountDiscount a) ->
      (total_price self < a)%Q -> final_amount self = 0%Q) /\
  (forall (pm : nat) (details : gmap string string) (w w1 : World),
      payment_method self = Some pm ->
      validate pm details w = (Ok true, w1) ->
      pay self details w =
        match process_payment pm (final_amount self) details w1 with
        | (Ok true, w2) => (Ok (true, set_status self "paid"), w2)
        | (Ok false, w2) => (Ok (false, self), w2)
        | (Raise e, w2) => (Raise e, w2)
        end).
Proof.
  repeat split.
  - apply final_amount_clamped_aux.
  - apply final_amount_clamped_aux.
  - intros a Hd Hlt. unfold final_amount, apply_discounts. rewrite Hd. simpl.
    unfold Qltb. destruct (Qle_bool 0 (total_price self - a)) eqn:E; [|reflexivity].
    apply Qle_bool_iff in E. lra.
  - intros pm details w w1 Hpm Hval. unfold pay. rewrite Hpm. unfold bind.
    rewrite Hval.
    destruct (process_payment pm (final_amount self) details w1) as [[[|]|e] w2];
      reflexivity.
Qed.

Lemma final_amount_clamped_witness : final_amount discounted_order = 0%Q.
Proof.
  apply (proj1 (proj2 (proj2 (final_amount_clamped discounted_order))) 30%Q).
  - reflexivity.
  - vm_compute. reflexivity.
Defined.

(** C5. Through [pay], no balance goes below zero: if every balance of
    every ledger is at least zero, it is so again after any run of [pay]
    calls, whatever the orders and the details. *)
Theorem pay_keeps_ledgers_nonneg (calls : list (Order * gmap string string)) (w : World) :
  ledger_nonneg w -> ledger_nonneg (pay_all calls w).
Proof.
  revert w. unfold pay_all.
  induction calls as [|[o d] calls IH]; intros w Hinv; simpl.
  - exact Hinv.
  - apply IH. apply pay_nonneg. exact Hinv.
Qed.

Lemma card_world_nonneg : ledger_nonneg card_world.
Proof.
  unfold ledger_nonneg, card_world. simpl.
  apply map_Forall_singleton. simpl.
  apply map_Forall_singleton. discriminate.
Qed.

Lemma pay_keeps_ledgers_nonneg_witness :
  ledger_nonneg
    (pay_all [(card_order, details_of_card); (card_order, details_of_card)] card_world).
Proof.
  apply pay_keeps_ledgers_nonneg. exact card_world_nonneg.
Defined.

(** C6. The contract of [process_payment], for the three classes and for a
    direct call: it asks [check_balance] itself; when the balance is not
    enough it returns false and the store is as before; when the account
    named in the details is in the ledger and holds at least [amount],
    it returns true and lowers that entry by exactly [amount], nothing
    else in the store changing; and it returns true in no other case. *)
Theorem process_payment_contract (pm : nat) (obj : PaymentMethod) (amount : Q)
    (details : gmap string string) (w : World) :
  heap w !! pm = Some obj ->
  let r := process_payment pm amount details w in
  (check_balance pm details amount w = (Ok false, w) ->
   fst r = Ok false /\ heap (snd r) = heap w) /\
  (forall k b, account obj details = Some k -> ledger obj !! k = Some b ->
               (b < amount)%Q -> fst r = Ok false /\ heap (snd r) = heap w) /\
  (forall k b, account obj details = Some k -> ledger obj !! k = Some b ->
               (amount <= b)%Q ->
               check_balance pm details amount w = (Ok true, w) /\
               fst r = Ok true /\
               heap (snd r)
               = <[pm := set_ledger obj (<[k := (b - amount)%Q]> (ledger obj))]> (heap w)) /\
  (fst r = Ok false -> heap (snd r) = heap w) /\
  (fst r = Ok true ->
   check_balance pm details amount w = (Ok true, w) /\
   exists k b,
     account obj details = Some k /\ ledger obj !! k = Some b /\ (amount <= b)%Q /\
     heap (snd r) = <[pm := set_ledger obj (<[k := (b - amount)%Q]> (ledger obj))]> (heap w)).
Proof.
  intros Hobj r. subst r.
  rewrite (process_payment_spec pm obj w amount details Hobj).
  rewrite (check_balance_spec pm obj w Hobj).
  unfold process_payment_outcome.
  split; [|split; [|split; [|split]]].
  - intros Hcb. injection Hcb as Hs. rewrite Hs. split; reflexivity.
  - intros k b Hk Hb Hlt.
    rewrite (insufficient_of_lt obj details amount k b Hk Hb Hlt). split; reflexivity.
  - intros k b Hk Hb Hle.
    destruct (sufficient_of_le obj details amount k b Hk Hb Hle) as [Hs Hc].
    rewrite Hs, Hc. simpl. unfold charge. rewrite Hk, Hb. repeat split.
  - destruct (sufficient obj details amount);
      [destruct (contains (ledger obj) (account obj details))|];
      simpl; intros Hr; try discriminate; reflexivity.
  - destruct (sufficient obj details amount) eqn:Hs; [|simpl; discriminate].
    destruct (contains (ledger obj) (account obj details)) eqn:Hc;
      [|simpl; discriminate].
    intros _. split; [reflexivity|].
    destruct (sufficient_inv _ _ _ Hs Hc) as (k & b & Hk & Hb & Hle & Hch).
    exists k, b. simpl. rewrite Hch. auto.
Qed.

Lemma process_payment_contract_witness :
  check_balance 0%nat details_of_card 20 card_world = (Ok true, card_world) /\
  fst (process_payment 0%nat 20 details_of_card card_world) = Ok true /\
  heap (snd (process_payment 0%nat 20 details_of_card card_world))
  = <[0%nat := set_ledger (CreditCard {[ approved_card := 500%Q ]})
                (<[approved_card := (500 - 20)%Q]> {[ approved_card := 500%Q ]})]>
      (heap card_world).
Proof.
  apply (proj1 (proj2 (proj2 (process_payment_contract 0%nat
           (CreditCard {[ approved_card := 500%Q ]}) 20 details_of_card card_world
           eq_refl))) approved_card 500%Q).
  - reflexivity.
  - reflexivity.
  - vm_compute. discriminate.
Defined.

Lemma account_set_ledger (obj : PaymentMethod) (d : gmap string Q)
    (details : gmap string string) :
  account (set_ledger obj d) details = account obj details.
Proof. destruct obj; reflexivity. Qed.

Lemma well_formed_set_ledger (obj : PaymentMethod) (d : gmap string Q)
    (details : gmap string string) :
  well_formed (set_ledger obj d) details = well_formed obj details.
Proof. destruct obj; reflexivity. Qed.

Lemma contains_insert (d : gmap string Q) (k : string) (b : Q) :
  contains (<[k := b]> d) (Some k) = true.
Proof. simpl. apply bool_decide_eq_true. rewrite lookup_insert_eq. eauto. Qed.

Lemma sufficient_set_ledger (obj : PaymentMethod) (d : gmap string Q)
    (details : gmap string string) (k : string) (b amount : Q) :
  account obj details = Some k ->
  sufficient (set_ledger obj (<[k := b]> d)) details amount = Qgeb b amount.
Proof.
  intros Hk.
  destruct obj as [d0|d0|d0]; simpl in *; rewrite Hk; simpl;
    rewrite ?lookup_insert_eq; reflexivity.
Qed.

(** C7. [pay] is not idempotent after a success: when a first call on an
    order with a payment method has succeeded, so that the status is
    ["paid"], and the balance left still covers the amount, a second call
    succeeds as well and takes the amount from the same account a second
    time. *)
Theorem pay_twice_charges_twice (self o1 : Order) (pm : nat) (obj : PaymentMethod)
    (details : gmap string string) (w w1 : World) (k : string) (b1 : Q) :
  payment_method self = Some pm ->
  heap w !! pm = Some obj ->
  account obj details = Some k ->
  pay self details w = (Ok (true, o1), w1) ->
  balance_of w1 pm k = Some b1 ->
  (final_amount self <= b1)%Q ->
  status o1 = "paid" /\
  exists (b0 : Q) (w2 : World),
    balance_of w pm k = Some b0 /\
    b1 = (b0 - final_amount self)%Q /\
    pay o1 details w1 = (Ok (true, o1), w2) /\
    balance_of w2 pm k = Some (b0 - final_amount self - final_amount self)%Q.
Proof.
  intros Hpm Hobj Hk Hpay Hb1 Hle.
  rewrite (pay_spec self pm obj w details Hpm Hobj) in Hpay.
  destruct (valid obj details) eqn:Hv; [|discriminate].
  destruct (sufficient obj details (final_amount self)) eqn:Hs; [|discriminate].
  injection Hpay as Ho1 Hw1. subst o1.
  split; [reflexivity|].
  destruct (sufficient_inv _ _ _ Hs (valid_contains _ _ Hv))
    as (k' & b0 & Hk' & Hb0 & _ & Hch).
  assert (k' = k) by congruence. subst k'.
  set (obj1 := set_ledger obj (<[k := (b0 - final_amount self)%Q]> (ledger obj))) in *.
  assert (Hobj1 : heap w1 !! pm = Some obj1).
  { subst w1. simpl. rewrite lookup_insert_eq. rewrite Hch. reflexivity. }
  assert (Hb1' : b1 = (b0 - final_amount self)%Q).
  { unfold balance_of in Hb1. rewrite Hobj1 in Hb1. unfold obj1 in Hb1.
    rewrite ledger_set_ledger, lookup_insert_eq in Hb1. congruence. }
  assert (Hv1 : valid obj1 details = true).
  { unfold valid, obj1 in *. rewrite well_formed_set_ledger, account_set_ledger,
      ledger_set_ledger, Hk, contains_insert.
    apply andb_true_iff in Hv. rewrite (proj1 Hv). reflexivity. }
  assert (Hs1 : sufficient obj1 details (final_amount self) = true).
  { unfold obj1. rewrite (sufficient_set_ledger _ _ _ _ _ _ Hk).
    apply Qle_bool_iff. rewrite <- Hb1'. exact Hle. }
  exists b0. eexists. split; [|split; [exact Hb1'|split]].
  - unfold balance_of. rewrite Hobj. exact Hb0.
  - rewrite (pay_spec (set_status self "paid") pm obj1 w1 details Hpm Hobj1).
    rewrite Hv1.
    change (final_amount (set_status self "paid")) with (final_amount self).
    rewrite Hs1. reflexivity.
  - unfold balance_of. simpl. rewrite lookup_insert_eq.
    change (final_amount (set_status self "paid")) with (final_amount self).
    unfold charge. unfold obj1 at 1 2.
    rewrite account_set_ledger, Hk, ledger_set_ledger, lookup_insert_eq.
    rewrite ledger_set_ledger, lookup_insert_eq. reflexivity.
Qed.

Lemma pay_twice_charges_twice_witness :
  status (set_status card_order "paid") = "paid" /\
  exists (b0 : Q) (w2 : World),
    balance_of card_world 0%nat approved_card = Some b0 /\
    480%Q = (b0 - final_amount card_order)%Q /\
    pay (set_status card_order "paid") details_of_card
        (snd (pay card_order details_of_card card_world))
      = (Ok (true, set_status card_order "paid"), w2) /\
    balance_of w2 0%nat approved_card
      = Some (b0 - final_amount card_order - final_amount card_order)%Q.
Proof.
  apply (pay_twice_charges_twice card_order (set_status card_order "paid") 0%nat
           (CreditCard {[ approved_card := 500%Q ]}) details_of_card card_world
           (snd (pay card_order details_of_card card_world)) approved_card 480%Q).
  - reflexivity.
  - reflexivity.
  - reflexivity.
  - vm_compute. reflexivity.
  - vm_compute. reflexivity.
  - vm_compute. discriminate.
Defined.

Lemma contains_dom (d d' : gmap string Q) (key : option string) :
  dom d = dom d' -> contains d key = contains d' key.
Proof.
  intros Hdom. destruct key as [k|]; [|reflexivity]. simpl.
  apply bool_decide_ext. rewrite <- !elem_of_dom, Hdom. reflexivity.
Qed.

(** C8. [validate] changes nothing but the console it prints to: the
    store, with every ledger in it, the files, the logging set-up, the
    pending input and the clock are as before.  Its answer is the shape
    check of the fields together with the membership of the account in the
    ledger; in particular the balances play no part in it. *)
Theorem validate_frame (pm : nat) (details : gmap string string) (w : World) :
  let r := validate pm details w in
  (heap (snd r) = heap w /\ files (snd r) = files w /\ log_sink (snd r) = log_sink w /\
   stdin (snd r) = stdin w /\ clock (snd r) = clock w) /\
  fst r = match heap w !! pm with
          | Some obj =>
              Ok (well_formed obj details && contains (ledger obj) (account obj details))
          | None => Raise AttributeError
          end /\
  forall (obj : PaymentMethod) (d : gmap string Q),
    dom d = dom (ledger obj) ->
    well_formed (set_ledger obj d) details
      && contains (ledger (set_ledger obj d)) (account (set_ledger obj d) details)
    = well_formed obj details && contains (ledger obj) (account obj details).
Proof.
  simpl. split; [|split].
  - destruct (heap w !! pm) as [obj|] eqn:Hobj.
    + rewrite (validate_spec pm obj w Hobj). simpl. auto.
    + unfold validate, bind, load. rewrite Hobj. simpl. auto.
  - destruct (heap w !! pm) as [obj|] eqn:Hobj.
    + rewrite (validate_spec pm obj w Hobj). reflexivity.
    + unfold validate, bind, load. rewrite Hobj. reflexivity.
  - intros obj d Hdom.
    rewrite well_formed_set_ledger, account_set_ledger, ledger_set_ledger.
    f_equal. apply contains_dom. exact Hdom.
Qed.

Lemma validate_frame_witness :
  let obj := CreditCard {[ approved_card := 500%Q ]} in
  let obj' := set_ledger obj {[ approved_card := 7%Q ]} in
  well_formed obj' details_of_card
    && contains (ledger obj') (account obj' details_of_card)
  = well_formed obj details_of_card && contains (ledger obj) (account obj details_of_card).
Proof.
  intros obj obj'.
  apply (proj2 (proj2 (validate_frame 0%nat details_of_card card_world))).
  simpl. rewrite !dom_singleton_L. reflexivity.
Defined.

(** C9. A direct call of [process_payment] with an account that is not in
    the ledger and an amount that is not positive: the PayPal and the
    cryptocurrency methods pass their balance check (the default balance 0
    is at least the amount) and then raise [KeyError] on the ledger entry,
    so they return no boolean; the credit-card method returns false for
    any card that is not in its ledger, whatever the amount. *)
Theorem process_payment_unknown_account (pm : nat) (d : gmap string Q) (amount : Q)
    (details : gmap string string) (w : World) :
  (heap w !! pm = Some (PayPal d) ->
   contains d (details !! "email") = false -> (amount <= 0)%Q ->
   check_balance pm details amount w = (Ok true, w) /\
   process_payment pm amount details w = (Raise (KeyError (details !! "email")), w)) /\
  (heap w !! pm = Some (Cryptocurrency d) ->
   contains d (details !! "wallet_address") = false -> (amount <= 0)%Q ->
   check_balance pm details amount w = (Ok true, w) /\
   process_payment pm amount details w
     = (Raise (KeyError (details !! "wallet_address")), w)) /\
  (heap w !! pm = Some (CreditCard d) ->
   contains d (details !! "card_number") = false ->
   fst (process_payment pm amount details w) = Ok false /\
   heap (snd (process_payment pm amount details w)) = heap w).
Proof.
  assert (Hzero : forall key, contains d key = false -> get_or_zero d key = 0%Q).
  { intros [k|] Hc; [|reflexivity]. simpl in *.
    apply bool_decide_eq_false in Hc.
    destruct (d !! k) eqn:E; [|reflexivity]. exfalso. apply Hc. eauto. }
  split; [|split]; intros Hobj Hc.
  - intros Hle.
    rewrite (check_balance_spec pm _ w Hobj), (process_payment_spec pm _ w _ _ Hobj).
    unfold process_payment_outcome. simpl. rewrite (Hzero _ Hc), Hc.
    assert (Hs : Qgeb 0 amount = true) by (apply Qle_bool_iff; exact Hle).
    rewrite Hs. split; reflexivity.
  - intros Hle.
    rewrite (check_balance_spec pm _ w Hobj), (process_payment_spec pm _ w _ _ Hobj).
    unfold process_payment_outcome. simpl. rewrite (Hzero _ Hc), Hc.
    assert (Hs : Qgeb 0 amount = true) by (apply Qle_bool_iff; exact Hle).
    rewrite Hs. split; reflexivity.
  - rewrite (process_payment_spec pm _ w _ _ Hobj).
    unfold process_payment_outcome. simpl. rewrite Hc. simpl. split; reflexivity.
Qed.

Lemma process_payment_unknown_account_witness :
  check_balance 0%nat stranger 0 paypal_world = (Ok true, paypal_world) /\
  process_payment 0%nat 0 stranger paypal_world
    = (Raise (KeyError (Some "nobody@example.org")), paypal_world).
Proof.
  apply (proj1 (process_payment_unknown_account 0%nat
           (<["Rand@gmail.com" := 500%Q]> {[ "Sama@gmail.com" := 1000%Q ]})
           0 stranger paypal_world)).
  - reflexivity.
  - vm_compute. reflexivity.
  - vm_compute. discriminate.
Defined.

(** C10. A direct call of [process_payment] with a negative amount on an
    account of the ledger, all balances being at least zero: the balance
    check passes, the call returns true and the balance grows by the
    absolute value of the amount.  [pay] never makes such a call, since the
    amount it hands over is not negative. *)
Theorem process_payment_negative_amount (pm : nat) (obj : PaymentMethod) (amount : Q)
    (details : gmap string string) (w : World) (k : string) (b : Q) :
  heap w !! pm = Some obj ->
  account obj details = Some k ->
  ledger obj !! k = Some b ->
  ledger_nonneg w ->
  (amount < 0)%Q ->
  let r := process_payment pm amount details w in
  check_balance pm details amount w = (Ok true, w) /\
  fst r = Ok true /\
  balance_of (snd r) pm k = Some (b - amount)%Q /\
  (b - amount == b + Qabs amount)%Q /\
  (forall self : Order, ~ (final_amount self < 0)%Q).
Proof.
  intros Hobj Hk Hb Hinv Hneg r. subst r.
  assert (Hb0 : (0 <= b)%Q) by exact (Hinv pm obj Hobj k b Hb).
  assert (Hc : contains (ledger obj) (account obj details) = true).
  { rewrite Hk. simpl. apply bool_decide_eq_true. rewrite Hb. eauto. }
  assert (Hs : sufficient obj details amount = true).
  { assert (Hge : Qgeb b amount = true) by (apply Qle_bool_iff; lra).
    destruct obj as [d|d|d]; simpl in *; rewrite Hk in *; simpl; rewrite Hb; simpl;
      rewrite Hge; reflexivity. }
  rewrite (check_balance_spec pm obj w Hobj), (process_payment_spec pm obj w _ _ Hobj).
  unfold process_payment_outcome. rewrite Hs, Hc.
  repeat split.
  - unfold balance_of. simpl. rewrite lookup_insert_eq.
    unfold charge. rewrite Hk, Hb, ledger_set_ledger, lookup_insert_eq. reflexivity.
  - rewrite Qabs_neg by lra. lra.
  - intros self Hlt. pose proof (proj1 (final_amount_clamped_aux self)). lra.
Qed.

Lemma process_payment_negative_amount_witness :
  let r := process_payment 0%nat (-20) details_of_card card_world in
  check_balance 0%nat details_of_card (-20) card_world = (Ok true, card_world) /\
  fst r = Ok true /\
  balance_of (snd r) 0%nat approved_card = Some (500 - -20)%Q /\
  (500 - -20 == 500 + Qabs (-20))%Q /\
  (forall self : Order, ~ (final_amount self < 0)%Q).
Proof.
  apply (process_payment_negative_amount 0%nat (CreditCard {[ approved_card := 500%Q ]})
           (-20) details_of_card card_world approved_card 500).
  - reflexivity.
  - reflexivity.
  - reflexivity.
  - exact card_world_nonneg.
  - reflexivity.
Defined.

Lemma class_of_charge (obj : PaymentMethod) (details : gmap string string) (amount : Q) :
  class_of (charge obj details amount) = class_of obj.
Proof.
  unfold charge. destruct (account obj details) as [k|]; [|reflexivity].
  destruct (ledger obj !! k); [|reflexivity]. destruct obj; reflexivity.
Qed.

(** With its method in the store, [pay] returns; it leaves the files, the
    logging set-up, the clock and the pending input alone, and the object
    keeps its class. *)
Lemma pay_total (self : Order) (pm : nat) (obj : PaymentMethod) (w : World)
    (details : gmap string string) :
  payment_method self = Some pm ->
  heap w !! pm = Some obj ->
  exists (success : bool) (w1 : World) (obj1 : PaymentMethod),
    pay self details w = (Ok (success, if success then set_status self "paid" else self), w1) /\
    log_sink w1 = log_sink w /\ files w1 = files w /\ clock w1 = clock w /\
    stdin w1 = stdin w /\
    heap w1 !! pm = Some obj1 /\ class_of obj1 = class_of obj.
Proof.
  intros Hpm Hobj. rewrite (pay_spec self pm obj w details Hpm Hobj).
  destruct (valid obj details); [destruct (sufficient obj details (final_amount self))|].
  - exists true. eexists. exists (charge obj details (final_amount self)).
    split; [reflexivity|]. simpl. rewrite lookup_insert_eq.
    repeat split; try reflexivity. apply class_of_charge.
  - exists false. eexists. exists obj. split; [reflexivity|]. simpl.
    repeat split; auto.
  - exists false. eexists. exists obj. split; [reflexivity|]. simpl.
    repeat split; auto.
Qed.

Lemma with_stdin_twice (i j : list string) (w : World) :
  with_stdin i (with_stdin j w) = with_stdin i w.
Proof. reflexivity. Qed.

Lemma checkout_logs (order : Order) (pm : nat) (obj : PaymentMethod) (w : World)
    (fields rest : list string) :
  heap w !! pm = Some obj ->
  log_sink w = Unconfigured ->
  stdin w = (fields ++ rest)%list ->
  length fields = fields_read obj ->
  exists (success : bool) (o' : Order) (w1 w' : World),
    pay (set_discount_strategy (set_payment_method order pm) (discount_of obj))
        (details_typed obj fields) (with_stdin rest w)
      = (Ok (success, o'), w1) /\
    checkout order (Some pm) w = (Ok tt, w') /\
    files w' =
      logged (FileLogger.log_message (clock w) (Str.replace "Payment" EmptyString (class_of obj))
                (total_price order) success) (files w).
Proof.
  intros Hobj Hsink Hin Hlen.
  destruct (pay_total
              (set_discount_strategy (set_payment_method order pm) (discount_of obj))
              pm obj (with_stdin rest w) (details_typed obj fields) eq_refl Hobj)
    as (success & w1 & obj1 & Hpay & Hs1 & Hf1 & Hc1 & _ & Hh1 & Hcl1).
  simpl in Hs1, Hf1, Hc1.
  destruct obj as [d|d|d]; simpl in Hlen;
    [ destruct fields as [|a [|b [|c [|]]]]; try discriminate Hlen
    | destruct fields as [|a [|]]; try discriminate Hlen
    | destruct fields as [|a [|]]; try discriminate Hlen ];
    destruct success;
    (eexists; eexists; exists w1; eexists;
     split; [exact Hpay|];
     unfold checkout, get_discount, bind, load; rewrite Hobj; simpl; rewrite Hobj;
     unfold input, ret; rewrite Hin; simpl; rewrite ?with_stdin_twice;
     simpl in Hpay; rewrite Hpay;
     unfold FileLogger.init, basicConfig, class_name, FileLogger.log_transaction,
       logging_info, now, bind, load, ret; rewrite Hs1, Hsink; simpl;
     rewrite Hh1; simpl; rewrite Hf1, Hc1, Hcl1;
     split; [reflexivity|];
     unfold logged, transactions_log; simpl;
     rewrite lookup_insert_eq, insert_insert_eq; reflexivity).
Qed.

Lemma main_with_method (entries : list (string * Z * Q)) (choice : string)
    (fields rest : list string) (w : World) :
  stdin w = choice :: (fields ++ rest)%list ->
  log_sink w = Unconfigured ->
  choice = "1" \/ choice = "2" \/ choice = "3" ->
  length fields = fields_read (created_by choice) ->
  exists (success : bool) (o' : Order) (w0 w1 w' : World),
    let pm := fresh (dom (heap w)) in
    heap w0 = <[pm := created_by choice]> (heap w) /\
    pay (set_discount_strategy (set_payment_method (enter_items entries) pm)
           (discount_of (created_by choice)))
        (details_typed (created_by choice) fields) w0
      = (Ok (success, o'), w1) /\
    main entries w = (Ok tt, w') /\
    files w' =
      logged (FileLogger.log_message (clock w) (label_of_choice choice)
                (total_price (enter_items entries)) success) (files w).
Proof.
  intros Hin Hsink Hchoice Hlen.
  unfold main, bind, print, input. cbn -[checkout]. rewrite Hin.
  destruct Hchoice as [Hc | [Hc | Hc]]; subst choice; cbn -[checkout fresh created_by];
    match goal with
    | |- context [created_by ?c] =>
        match goal with
        | |- context [checkout ?o (Some ?l) ?W] =>
            destruct (checkout_logs o l (created_by c) W fields rest
                        (lookup_insert_eq _ _ _) Hsink eq_refl Hlen)
              as (success & o' & w1 & w' & Hpay & Hck & Hfiles);
            rewrite Hck; exists success, o'; eexists; exists w1, w';
            split; [|split; [exact Hpay|split; [reflexivity|exact Hfiles]]]
        end
    end;
    reflexivity.
Qed.

(** C1, the claim as stated fails.  In scenario 1 the only line of the
    transaction log is the one of the total 50.00 with the label
    [CreditCard]; it does not end with
    ["Credit payment of $20.00 - Success"], although 20.00 is the amount
    handed to [process_payment] and taken from the balance. *)
Lemma scenario1_line_counterexample :
  let r := main scenario1_entries scenario1 in
  exists line : string,
    files (snd r) !! transactions_log = Some [line] /\
    line = "2024-01-01 12:00:00.000000: CreditCard payment of $50.00 - Success" /\
    Str.ends_with "Credit payment of $20.00 - Success" line = false /\
    Fmt.fixed2 (final_amount scenario1_order) = "20.00" /\
    balance_of (snd r) 0%nat approved_card = Some 480%Q.
Proof.
  eexists. split; [vm_compute; reflexivity|].
  split; [reflexivity|]. vm_compute. auto.
Qed.

(** C1, amended.  A run of the driver in which a payment method is chosen
    (choice 1, 2 or 3, with the lines of the details typed) ends normally
    and adds one line to the transaction log: the time, the class name of
    the method without [Payment], the total price of the order, not
    discounted, and [Success] or [Failure] as [pay] returned.  In
    scenario 1 the line ends with
    ["CreditCard payment of $50.00 - Success"] and the balance goes from
    500 to 480. *)
Theorem log_line_records_total_price :
  (forall (entries : list (string * Z * Q)) (choice : string)
          (fields rest : list string) (w : World),
      stdin w = choice :: (fields ++ rest)%list ->
      log_sink w = Unconfigured ->
      choice = "1" \/ choice = "2" \/ choice = "3" ->
      length fields = fields_read (created_by choice) ->
      exists (success : bool) (o' : Order) (w0 w1 w' : World),
        heap w0 = <[fresh (dom (heap w)) := created_by choice]> (heap w) /\
        pay (set_discount_strategy
               (set_payment_method (enter_items entries) (fresh (dom (heap w))))
               (discount_of (created_by choice)))
            (details_typed (created_by choice) fields) w0
          = (Ok (success, o'), w1) /\
        main entries w = (Ok tt, w') /\
        files w' =
          logged (FileLogger.log_message (clock w) (label_of_choice choice)
                    (total_price (enter_items entries)) success) (files w)) /\
  (let r := main scenario1_entries scenario1 in
   fst r = Ok tt /\
   files (snd r) !! transactions_log
     = Some [clock scenario1 +:+ ": CreditCard payment of $50.00 - Success"] /\
   Str.ends_with "CreditCard payment of $50.00 - Success"
     (clock scenario1 +:+ ": CreditCard payment of $50.00 - Success") = true /\
   balance_of scenario1 0%nat approved_card = None /\
   balance_of (snd r) 0%nat approved_card = Some 480%Q).
Proof.
  split.
  - intros entries choice fields rest w Hin Hsink Hchoice Hlen.
    exact (main_with_method entries choice fields rest w Hin Hsink Hchoice Hlen).
  - vm_compute. auto.
Qed.

Lemma log_line_records_total_price_witness :
  exists (success : bool) (w' : World),
    main scenario1_entries scenario1 = (Ok tt, w') /\
    files w' =
      logged (FileLogger.log_message (clock scenario1) "CreditCard"
                (total_price (enter_items scenario1_entries)) success) (files scenario1).
Proof.
  destruct (proj1 log_line_records_total_price scenario1_entries "1"
              ["1234567891234567"; "11/25"; "123"] [] scenario1
              eq_refl eq_refl (or_introl eq_refl) eq_refl)
    as (success & o' & w0 & w1 & w' & _ & _ & Hmain & Hfiles).
  exists success, w'. split; [exact Hmain | exact Hfiles].
Defined.

(** C2, on the cash path.  With choice 4 the driver reads the name and the
    address, lets [pay] return true and then raises [TypeError] when it
    creates the abstract [TransactionLogger]: no line is added to any
    file, and the logging set-up is untouched. *)
Theorem cash_checkout_raises (entries : list (string * Z * Q)) (name address : string)
    (rest : list string) (w : World) :
  stdin w = "4" :: name :: address :: rest ->
  fst (main entries w) = Raise TypeError /\
  files (snd (main entries w)) = files w /\
  log_sink (snd (main entries w)) = log_sink w /\
  last (stdout (snd (main entries w)))
    = Some "Cash payment does not include any discount.".
Proof.
  intros Hin.
  unfold main, checkout, bind, print, input. cbn -[pay]. rewrite Hin. cbn -[pay].
  rewrite pay_no_method by apply enter_items_no_method.
  cbn. repeat split. apply last_snoc.
Qed.

Lemma cash_checkout_raises_witness :
  let w := fresh_world ["4"; "Ann"; "1 Main Street"] "2024-01-01 12:00:00.000000" in
  fst (main scenario1_entries w) = Raise TypeError /\
  files (snd (main scenario1_entries w)) = ∅.
Proof.
  intros w.
  destruct (cash_checkout_raises scenario1_entries "Ann" "1 Main Street" [] w eq_refl)
    as (Hraise & Hfiles & _).
  split; [exact Hraise | exact Hfiles].
Defined.

(** ** Further properties of the code *)

(** *** Orders: items and total *)

Lemma zip_snoc (qs : list Z) (ps : list Q) (q : Z) (p : Q) :
  length qs = length ps ->
  zip (qs ++ [q]) (ps ++ [p]) = (zip qs ps ++ [(q, p)])%list.
Proof.
  revert ps. induction qs as [|q0 qs IH]; intros [|p0 ps] Hlen; simpl in *;
    try discriminate; [reflexivity|].
  rewrite IH by congruence. reflexivity.
Qed.

Lemma total_price_add_item (o : Order) (name : string) (quantity : Z) (price : Q) :
  aligned o ->
  total_price (add_item o name quantity price)
  = (total_price o + inject_Z quantity * price)%Q.
Proof.
  intros [_ Hlen]. unfold total_price, add_item. simpl.
  rewrite zip_snoc by exact Hlen. rewrite fold_left_app. reflexivity.
Qed.

Lemma aligned_add_item (o : Order) (name : string) (quantity : Z) (price : Q) :
  aligned o -> aligned (add_item o name quantity price).
Proof.
  intros [H1 H2]. unfold aligned, add_item. simpl.
  rewrite !length_app. simpl. lia.
Qed.

Lemma enter_items_snoc (entries : list (string * Z * Q)) (e : string * Z * Q) :
  enter_items (entries ++ [e])
  = add_item (enter_items entries) (fst (fst e)) (snd (fst e)) (snd e).
Proof. unfold enter_items. rewrite fold_left_app. reflexivity. Qed.

Lemma aligned_enter_items (entries : list (string * Z * Q)) :
  aligned (enter_items entries).
Proof.
  induction entries as [|e entries IH] using rev_ind.
  - split; reflexivity.
  - rewrite enter_items_snoc. apply aligned_add_item. exact IH.
Qed.

Lemma total_price_enter_items (entries : list (string * Z * Q)) :
  total_price (enter_items entries) = rows_total entries.
Proof.
  induction entries as [|e entries IH] using rev_ind.
  - reflexivity.
  - rewrite enter_items_snoc, total_price_add_item by apply aligned_enter_items.
    unfold rows_total in *. rewrite fold_left_app. simpl. rewrite IH. reflexivity.
Qed.

Lemma enter_items_untouched (entries : list (string * Z * Q)) :
  status (enter_items entries) = "open" /\
  discount_strategy (enter_items entries) = None.
Proof.
  induction entries as [|e entries IH] using rev_ind.
  - split; reflexivity.
  - rewrite enter_items_snoc. exact IH.
Qed.

(** X1. [add_item] on an order whose three lists have the same length
    keeps them so, and raises [total_price()] by quantity times price;
    the status, the payment method and the discount strategy are not
    touched. *)
Theorem add_item_adds_to_total (o : Order) (name : string) (quantity : Z) (price : Q) :
  aligned o ->
  aligned (add_item o name quantity price) /\
  total_price (add_item o name quantity price)
  = (total_price o + inject_Z quantity * price)%Q /\
  status (add_item o name quantity price) = status o /\
  payment_method (add_item o name quantity price) = payment_method o /\
  discount_strategy (add_item o name quantity price) = discount_strategy o.
Proof.
  intros Hal. split; [apply aligned_add_item; exact Hal|].
  split; [apply total_price_add_item; exact Hal|].
  repeat split.
Qed.

Lemma add_item_adds_to_total_witness :
  total_price (add_item new_order "book" 2 25) = (total_price new_order + inject_Z 2 * 25)%Q.
Proof.
  apply (add_item_adds_to_total new_order "book" 2 25).
  split; reflexivity.
Defined.

(** X2. The order built by the item loop: its three lists have the same
    length, its total is quantity times price of the rows added up from 0
    in the order in which they were typed (0 when there is none), its
    status is ["open"] and it has no payment method and no discount
    strategy yet. *)
Theorem total_price_of_rows (entries : list (string * Z * Q)) :
  aligned (enter_items entries) /\
  total_price (enter_items entries) = rows_total entries /\
  status (enter_items entries) = "open" /\
  payment_method (enter_items entries) = None /\
  discount_strategy (enter_items entries) = None.
Proof.
  split; [apply aligned_enter_items|].
  split; [apply total_price_enter_items|].
  destruct (enter_items_untouched entries) as [Hs Hd].
  split; [exact Hs|]. split; [apply enter_items_no_method | exact Hd].
Qed.

(** *** Discounts *)

Lemma percentage_bounds (percentage amount : Q) :
  (0 <= percentage)%Q -> (percentage <= 100)%Q -> (0 <= amount)%Q ->
  (0 <= calculate_discount (PercentageDiscount percentage) amount)%Q /\
  (calculate_discount (PercentageDiscount percentage) amount <= amount)%Q.
Proof.
  intros H0 H100 Ha. simpl.
  assert (E : (amount * (percentage / 100) == amount * percentage * (1 # 100))%Q)
    by (unfold Qdiv; change (/ 100)%Q with (1 # 100)%Q; ring).
  rewrite E. split; nra.
Qed.

Lemma final_amount_unclamped (self : Order) :
  (apply_discounts self <= total_price self)%Q ->
  final_amount self = (total_price self - apply_discounts self)%Q.
Proof.
  intros Hle. unfold final_amount, Qltb.
  destruct (Qle_bool 0 (total_price self - apply_discounts self)) eqn:E; [reflexivity|].
  exfalso. assert (H : Qle_bool 0 (total_price self - apply_discounts self) = true)
    by (apply Qle_bool_iff; lra).
  congruence.
Qed.

(** X3. A percentage discount between 0 and 100 on an amount that is not
    negative lies between 0 and the amount, and a fixed discount is its
    constant whatever the amount.  With such a percentage on an order
    whose total is not negative, [pay] hands over the total less the
    discount, with no clamping, and never more than the total. *)
Theorem percentage_discount_in_range (self : Order) (percentage : Q) :
  (0 <= percentage)%Q -> (percentage <= 100)%Q ->
  (0 <= total_price self)%Q ->
  discount_strategy self = Some (PercentageDiscount percentage) ->
  (forall amount : Q,
      (0 <= amount)%Q ->
      (0 <= calculate_discount (PercentageDiscount percentage) amount <= amount)%Q) /\
  (forall a amount : Q, calculate_discount (FixedAmountDiscount a) amount = a) /\
  final_amount self = (total_price self - total_price self * (percentage / 100))%Q /\
  (final_amount self <= total_price self)%Q.
Proof.
  intros H0 H100 Ht Hd.
  split; [intros amount Ha; apply percentage_bounds; assumption|].
  split; [reflexivity|].
  assert (Hap : apply_discounts self = (total_price self * (percentage / 100))%Q).
  { unfold apply_discounts. rewrite Hd. reflexivity. }
  destruct (percentage_bounds percentage (total_price self) H0 H100 Ht) as [Hlo Hhi].
  simpl in Hlo, Hhi.
  rewrite final_amount_unclamped; rewrite Hap; [|exact Hhi].
  split; [reflexivity|lra].
Qed.

Lemma percentage_discount_in_range_witness :
  final_amount (set_discount_strategy (add_item new_order "book" 4 25) (PercentageDiscount 10))
  = (total_price (set_discount_strategy (add_item new_order "book" 4 25)
                    (PercentageDiscount 10))
     - total_price (set_discount_strategy (add_item new_order "book" 4 25)
                      (PercentageDiscount 10)) * (10 / 100))%Q.
Proof.
  apply (percentage_discount_in_range
           (set_discount_strategy (add_item new_order "book" 4 25) (PercentageDiscount 10))
           10).
  - discriminate.
  - discriminate.
  - discriminate.
  - reflexivity.
Defined.

(** X4. What each class makes [pay] charge, the order being set up as the
    driver does (the discount is the one [get_discount] returns) and its
    total not negative.  A credit card pays the total less 30, and
    nothing when the total is below 30.  PayPal pays the total less the
    total times 10/100 and a cryptocurrency wallet the total less the
    total times 20/100, and the clamp to 0 never applies to them.  In no
    case is more than the total charged. *)
Theorem charged_per_class (order : Order) (pm : nat) (obj : PaymentMethod) (w : World) :
  heap w !! pm = Some obj ->
  (0 <= total_price order)%Q ->
  let o := set_discount_strategy (set_payment_method order pm) (discount_of obj) in
  fst (get_discount pm w) = Ok (discount_of obj) /\
  match obj with
  | CreditCard _ =>
      ((total_price order < 30)%Q -> final_amount o = 0%Q) /\
      ((30 <= total_price order)%Q -> final_amount o = (total_price order - 30)%Q)
  | PayPal _ =>
      final_amount o = (total_price order - total_price order * (10 / 100))%Q
  | Cryptocurrency _ =>
      final_amount o = (total_price order - total_price order * (20 / 100))%Q
  end /\
  (0 <= final_amount o <= total_price order)%Q.
Proof.
  intros Hobj Ht o.
  split.
  { unfold get_discount, bind, load. rewrite Hobj. destruct obj; reflexivity. }
  assert (Htot : total_price o = total_price order) by reflexivity.
  pose proof (proj1 (final_amount_clamped_aux o)) as Hnn.
  destruct obj as [d|d|d].
  - assert (Hap : apply_discounts o = 30%Q) by reflexivity.
    assert (Hlow : (total_price order < 30)%Q -> final_amount o = 0%Q).
    { intros Hlt. unfold final_amount, Qltb. rewrite Hap, Htot.
      destruct (Qle_bool 0 (total_price order - 30)) eqn:E; [|reflexivity].
      apply Qle_bool_iff in E. lra. }
    assert (Hhigh : (30 <= total_price order)%Q ->
                    final_amount o = (total_price order - 30)%Q).
    { intros Hge. rewrite final_amount_unclamped; rewrite Hap, Htot;
        [reflexivity | exact Hge]. }
    split; [split; assumption|]. split; [exact Hnn|].
    destruct (Qlt_le_dec (total_price order) 30) as [Hlt|Hge].
    + rewrite (Hlow Hlt). exact Ht.
    + rewrite (Hhigh Hge). lra.
  - assert (Hap : apply_discounts o = (total_price order * (10 / 100))%Q) by reflexivity.
    destruct (percentage_bounds 10 (total_price order)) as [Hlo Hhi];
      [discriminate | discriminate | exact Ht |]. simpl in Hlo, Hhi.
    assert (Hfa : final_amount o = (total_price order - total_price order * (10 / 100))%Q).
    { rewrite final_amount_unclamped; rewrite Hap, Htot; [reflexivity | exact Hhi]. }
    split; [exact Hfa|]. split; [exact Hnn|]. rewrite Hfa. lra.
  - assert (Hap : apply_discounts o = (total_price order * (20 / 100))%Q) by reflexivity.
    destruct (percentage_bounds 20 (total_price order)) as [Hlo Hhi];
      [discriminate | discriminate | exact Ht |]. simpl in Hlo, Hhi.
    assert (Hfa : final_amount o = (total_price order - total_price order * (20 / 100))%Q).
    { rewrite final_amount_unclamped; rewrite Hap, Htot; [reflexivity | exact Hhi]. }
    split; [exact Hfa|]. split; [exact Hnn|]. rewrite Hfa. lra.
Qed.

Lemma charged_per_class_witness :
  final_amount (set_discount_strategy
                  (set_payment_method (add_item new_order "book" 4 25) 0%nat)
                  (PercentageDiscount 10))
  = (total_price (add_item new_order "book" 4 25)
     - total_price (add_item new_order "book" 4 25) * (10 / 100))%Q.
Proof.
  apply (charged_per_class (add_item new_order "book" 4 25) 0%nat
           (PayPal (<["Rand@gmail.com" := 500%Q]> {[ "Sama@gmail.com" := 1000%Q ]}))
           paypal_world).
  - reflexivity.
  - discriminate.
Defined.

(** *** Paying *)

(** X5. With its method in the store, [pay] raises nothing and returns a
    boolean: true exactly when [validate] accepts the details and
    [check_balance] covers the amount to charge.  On true the order comes
    back with status ["paid"]; on false the order and the whole store are
    as before.  The files are never touched. *)
Theorem pay_outcome (self : Order) (pm : nat) (obj : PaymentMethod) (w : World)
    (details : gmap string string) :
  payment_method self = Some pm ->
  heap w !! pm = Some obj ->
  exists (success : bool) (o' : Order) (w' : World),
    pay self details w = (Ok (success, o'), w') /\
    (success = true <->
     fst (validate pm details w) = Ok true /\
     fst (check_balance pm details (final_amount self) w) = Ok true) /\
    (success = true -> o' = set_status self "paid") /\
    (success = false -> o' = self /\ heap w' = heap w) /\
    files w' = files w /\ log_sink w' = log_sink w.
Proof.
  intros Hpm Hobj.
  rewrite (pay_spec self pm obj w details Hpm Hobj).
  rewrite (validate_spec pm obj w Hobj), (check_balance_spec pm obj w Hobj). simpl.
  destruct (valid obj details); [destruct (sufficient obj details (final_amount self))|].
  - exists true. do 2 eexists. split; [reflexivity|].
    repeat split; auto; discriminate.
  - exists false. do 2 eexists. split; [reflexivity|].
    repeat split; auto; try discriminate. intros [_ H]; discriminate.
  - exists false. do 2 eexists. split; [reflexivity|].
    repeat split; auto; try discriminate. intros [H _]; discriminate.
Qed.

Lemma pay_outcome_witness :
  exists (success : bool) (o' : Order) (w' : World),
    pay card_order details_of_card card_world = (Ok (success, o'), w') /\
    (success = true <->
     fst (validate 0%nat details_of_card card_world) = Ok true /\
     fst (check_balance 0%nat details_of_card (final_amount card_order) card_world)
     = Ok true) /\
    (success = true -> o' = set_status card_order "paid") /\
    (success = false -> o' = card_order /\ heap w' = heap card_world) /\
    files w' = files card_world /\ log_sink w' = log_sink card_world.
Proof.
  apply (pay_outcome card_order 0%nat (CreditCard {[ approved_card := 500%Q ]}) card_world
           details_of_card); reflexivity.
Defined.

Lemma dom_charge (obj : PaymentMethod) (details : gmap string string) (amount : Q) :
  dom (ledger (charge obj details amount)) = dom (ledger obj).
Proof.
  unfold charge. destruct (account obj details) as [k|]; [|reflexivity].
  destruct (ledger obj !! k) as [b|] eqn:Hb; [|reflexivity].
  rewrite ledger_set_ledger. apply dom_insert_lookup_L. eauto.
Qed.

Lemma charge_other (obj : PaymentMethod) (details : gmap string string) (amount : Q)
    (k : string) :
  account obj details <> Some k ->
  ledger (charge obj details amount) !! k = ledger obj !! k.
Proof.
  intros Hne. unfold charge. destruct (account obj details) as [k0|]; [|reflexivity].
  destruct (ledger obj !! k0) as [b|]; [|reflexivity].
  rewrite ledger_set_ledger. apply lookup_insert_ne. congruence.
Qed.

Lemma same_accounts_refl (h : gmap nat PaymentMethod) : same_accounts h h.
Proof. intros pm. destruct (h !! pm); auto. Qed.

Lemma same_accounts_charge (h : gmap nat PaymentMethod) (pm : nat) (obj : PaymentMethod)
    (details : gmap string string) (amount : Q) :
  h !! pm = Some obj ->
  same_accounts h (<[pm := charge obj details amount]> h).
Proof.
  intros Hobj pm'. destruct (decide (pm = pm')) as [<-|Hne].
  - rewrite lookup_insert_eq, Hobj. split; [apply class_of_charge | apply dom_charge].
  - rewrite lookup_insert_ne by exact Hne. destruct (h !! pm'); auto.
Qed.

Lemma balance_after_charge (w : World) (pm : nat) (obj : PaymentMethod)
    (details : gmap string string) (amount : Q) (pm' : nat) (k : string) :
  heap w !! pm = Some obj ->
  pm' <> pm \/ account obj details <> Some k ->
  balance_of (with_heap (<[pm := charge obj details amount]> (heap w)) w) pm' k
  = balance_of w pm' k.
Proof.
  intros Hobj Hother. unfold balance_of. simpl.
  destruct (decide (pm = pm')) as [<-|Hne].
  - rewrite lookup_insert_eq, Hobj. destruct Hother as [H|H]; [congruence|].
    apply charge_other. exact H.
  - rewrite lookup_insert_ne by exact Hne. reflexivity.
Qed.

(** X6. Whatever its result, [pay] keeps the objects of the store, their
    classes and the accounts of every ledger: no account is created or
    removed.  The only balance it can change is the one of the account
    named in the details, in the ledger of the order's own method. *)
Theorem pay_frame (self : Order) (details : gmap string string) (w : World) :
  same_accounts (heap w) (heap (snd (pay self details w))) /\
  forall (pm' : nat) (k : string),
    (payment_method self <> Some pm' \/
     forall obj, heap w !! pm' = Some obj -> account obj details <> Some k) ->
    balance_of (snd (pay self details w)) pm' k = balance_of w pm' k.
Proof.
  destruct (payment_method self) as [pm|] eqn:Hpm.
  - destruct (heap w !! pm) as [obj|] eqn:Hobj.
    + rewrite (pay_spec self pm obj w details Hpm Hobj).
      destruct (valid obj details);
        [destruct (sufficient obj details (final_amount self))|];
        simpl; try (split; [apply same_accounts_refl | reflexivity]).
      split; [apply same_accounts_charge; exact Hobj|].
      intros pm' k Hother.
      change (balance_of
                (with_heap (<[pm := charge obj details (final_amount self)]> (heap w)) w)
                pm' k = balance_of w pm' k).
      apply balance_after_charge; [exact Hobj|].
      destruct Hother as [H|H].
      * left. congruence.
      * destruct (decide (pm' = pm)) as [->|Hne]; [right; apply H; exact Hobj | left; exact Hne].
    + rewrite (pay_dangling self pm details w Hpm Hobj). simpl.
      split; [apply same_accounts_refl | reflexivity].
  - rewrite (pay_no_method self details w Hpm). simpl.
    split; [apply same_accounts_refl | reflexivity].
Qed.

Lemma pay_frame_witness :
  fst (pay card_order details_of_card two_methods_world)
  = Ok (true, set_status card_order "paid") /\
  balance_of (snd (pay card_order details_of_card two_methods_world)) 1%nat "Rand@gmail.com"
  = balance_of two_methods_world 1%nat "Rand@gmail.com".
Proof.
  split; [vm_compute; reflexivity|].
  apply (proj2 (pay_frame card_order details_of_card two_methods_world)).
  left. discriminate.
Defined.

(** *** The methods called directly *)

(** X7. [check_balance] only reads: the world is as before.  For an
    account of the ledger it tells whether the balance covers the amount.
    For an account that is not in the ledger the credit-card method
    answers false, while the PayPal and cryptocurrency methods compare
    the amount with a balance of 0, so they answer true for an amount
    that is not positive. *)
Theorem check_balance_reads (pm : nat) (obj : PaymentMethod) (w : World)
    (details : gmap string string) (amount : Q) :
  heap w !! pm = Some obj ->
  snd (check_balance pm details amount w) = w /\
  (forall k b, account obj details = Some k -> ledger obj !! k = Some b ->
               fst (check_balance pm details amount w) = Ok (Qle_bool amount b)) /\
  (contains (ledger obj) (account obj details) = false ->
   fst (check_balance pm details amount w)
   = Ok match obj with
        | CreditCard _ => false
        | PayPal _ | Cryptocurrency _ => Qle_bool amount 0
        end).
Proof.
  intros Hobj. rewrite (check_balance_spec pm obj w Hobj). simpl.
  split; [reflexivity|]. split.
  - intros k b Hk Hb. f_equal.
    destruct obj as [d|d|d]; simpl in *; rewrite Hk; simpl; rewrite Hb; simpl;
      reflexivity.
  - intros Hc. f_equal.
    assert (Hz : get_or_zero (ledger obj) (account obj details) = 0%Q).
    { destruct (account obj details) as [k|]; [|reflexivity]. simpl in *.
      apply bool_decide_eq_false in Hc.
      destruct (ledger obj !! k) eqn:E; [|reflexivity]. exfalso. apply Hc. eauto. }
    destruct obj as [d|d|d]; simpl in *; rewrite ?Hc, ?Hz; reflexivity.
Qed.

Lemma check_balance_reads_witness :
  fst (check_balance 0%nat stranger (-1) paypal_world) = Ok (Qle_bool (-1) 0).
Proof.
  apply (proj2 (proj2 (check_balance_reads 0%nat
           (PayPal (<["Rand@gmail.com" := 500%Q]> {[ "Sama@gmail.com" := 1000%Q ]}))
           paypal_world stranger (-1) eq_refl))).
  vm_compute. reflexivity.
Defined.

(** X8. A direct call of [process_payment], whatever the amount and the
    details, and whether it returns or raises: balances that were all at
    least zero stay so, no object and no account is created or removed,
    and the files are not touched. *)
Theorem process_payment_direct_safe (pm : nat) (amount : Q)
    (details : gmap string string) (w : World) :
  ledger_nonneg w ->
  ledger_nonneg (snd (process_payment pm amount details w)) /\
  same_accounts (heap w) (heap (snd (process_payment pm amount details w))) /\
  files (snd (process_payment pm amount details w)) = files w.
Proof.
  intros Hinv. split; [apply process_payment_nonneg; exact Hinv|].
  destruct (heap w !! pm) as [obj|] eqn:Hobj.
  - rewrite (process_payment_spec pm obj w amount details Hobj).
    unfold process_payment_outcome.
    destruct (sufficient obj details amount);
      [destruct (contains (ledger obj) (account obj details))|]; simpl;
      try (split; [apply same_accounts_refl | reflexivity]).
    split; [apply same_accounts_charge; exact Hobj | reflexivity].
  - unfold process_payment, bind, load. rewrite Hobj. simpl.
    split; [apply same_accounts_refl | reflexivity].
Qed.

Lemma process_payment_direct_safe_witness :
  ledger_nonneg (snd (process_payment 0%nat (-20) details_of_card card_world)).
Proof.
  apply (process_payment_direct_safe 0%nat (-20) details_of_card card_world).
  exact card_world_nonneg.
Defined.

(** X9. Details without the field that names the account (the empty
    dictionary, for one): [validate] answers false, and [pay] returns
    false with the order and the store as they were. *)
Theorem missing_account_rejected (self : Order) (pm : nat) (obj : PaymentMethod)
    (w : World) (details : gmap string string) :
  payment_method self = Some pm ->
  heap w !! pm = Some obj ->
  account obj details = None ->
  fst (validate pm details w) = Ok false /\
  fst (pay self details w) = Ok (false, self) /\
  heap (snd (pay self details w)) = heap w.
Proof.
  intros Hpm Hobj Hacc.
  assert (Hv : valid obj details = false).
  { unfold valid. destruct obj as [d|d|d]; simpl in *; rewrite Hacc; reflexivity. }
  rewrite (validate_spec pm obj w Hobj), (pay_spec self pm obj w details Hpm Hobj), Hv.
  repeat split.
Qed.

Lemma missing_account_rejected_witness :
  fst (pay card_order ∅ card_world) = Ok (false, card_order).
Proof.
  apply (missing_account_rejected card_order 0%nat
           (CreditCard {[ approved_card := 500%Q ]}) card_world ∅);
    reflexivity.
Defined.

(** *** The driver and the logger *)

(** X10. A choice of the menu other than 1, 2, 3 or 4: [main] prints
    ["Invalid choice."] and returns; it creates no payment method, sets
    up no logging and writes to no file, and reads nothing more. *)
Theorem main_invalid_choice (entries : list (string * Z * Q)) (choice : string)
    (rest : list string) (w : World) :
  stdin w = choice :: rest ->
  choice <> "1" -> choice <> "2" -> choice <> "3" -> choice <> "4" ->
  fst (main entries w) = Ok tt /\
  heap (snd (main entries w)) = heap w /\
  files (snd (main entries w)) = files w /\
  log_sink (snd (main entries w)) = log_sink w /\
  stdin (snd (main entries w)) = rest /\
  last (stdout (snd (main entries w))) = Some "Invalid choice.".
Proof.
  intros Hin H1 H2 H3 H4.
  unfold main, bind, print, input. cbn -[checkout String.eqb]. rewrite Hin.
  cbn -[checkout String.eqb].
  apply String.eqb_neq in H1, H2, H3, H4. rewrite H1, H2, H3, H4.
  cbn. repeat split. apply last_snoc.
Qed.

Lemma main_invalid_choice_witness :
  fst (main scenario1_entries (fresh_world ["5"] "t")) = Ok tt /\
  heap (snd (main scenario1_entries (fresh_world ["5"] "t"))) = ∅.
Proof.
  destruct (main_invalid_choice scenario1_entries "5" [] (fresh_world ["5"] "t") eq_refl)
    as (Hr & Hh & _); try discriminate.
  split; [exact Hr | exact Hh].
Defined.

(** X11. Creating a [FileLogger] and logging one transaction, the root
    logger not being configured yet: the logger is set up on the file
    named, one line is added at the end of that file, and every other
    file is as before. *)
Theorem log_once_appends (filename label : string) (amount : Q) (success : bool)
    (w : World) :
  log_sink w = Unconfigured ->
  fst (log_once filename label amount success w) = Ok tt /\
  log_sink (snd (log_once filename label amount success w)) = File filename INFO /\
  lines_of (files (snd (log_once filename label amount success w))) filename
  = (lines_of (files w) filename
       ++ [FileLogger.log_message (clock w) label amount success])%list /\
  (forall other, other <> filename ->
     files (snd (log_once filename label amount success w)) !! other = files w !! other) /\
  heap (snd (log_once filename label amount success w)) = heap w.
Proof.
  intros Hsink.
  unfold log_once, FileLogger.init, FileLogger.log_transaction, basicConfig,
    logging_info, now, bind, ret, lines_of.
  rewrite Hsink. simpl. rewrite insert_insert_eq, !lookup_insert_eq.
  do 3 (split; [reflexivity|]). split; [|reflexivity].
  intros other Hne. apply lookup_insert_ne. congruence.
Qed.

Lemma log_once_appends_witness :
  lines_of (files (snd (log_once "a.log" "cash" 5 true (fresh_world [] "t")))) "a.log"
  = (lines_of (files (fresh_world [] "t")) "a.log"
       ++ [FileLogger.log_message "t" "cash" 5 true])%list.
Proof.
  apply (log_once_appends "a.log" "cash" 5 true (fresh_world [] "t")).
  reflexivity.
Defined.



(** *** The patterns of [validate] *)

Lemma app_cons (c : ascii) (s t : string) : String c s +:+ t = String c (s +:+ t).
Proof. reflexivity. Qed.

Lemma app_nil_r (s : string) : s +:+ EmptyString = s.
Proof. induction s as [|c s IH]; [reflexivity|]. rewrite app_cons, IH. reflexivity. Qed.

Lemma app_assoc_str (s t u : string) : (s +:+ t) +:+ u = s +:+ (t +:+ u).
Proof.
  induction s as [|c s IH]; [reflexivity|]. rewrite !app_cons, IH. reflexivity.
Qed.

Lemma app_eq_nil_str (s t : string) :
  s +:+ t = EmptyString -> s = EmptyString /\ t = EmptyString.
Proof.
  destruct s as [|c s]; [intros H; split; [reflexivity | exact H]|].
  rewrite app_cons. discriminate.
Qed.

Lemma nullable_sound (r : Re.regex) : Re.nullable r = true -> lang r EmptyString.
Proof.
  induction r as [| |p|r1 IH1 r2 IH2|r1 IH1 r2 IH2|r IH]; simpl; intros H;
    try discriminate.
  - constructor.
  - apply andb_true_iff in H. destruct H as [H1 H2].
    change EmptyString with (EmptyString +:+ EmptyString). constructor; auto.
  - apply orb_true_iff in H. destruct H as [H|H];
      [apply lang_alt_l | apply lang_alt_r]; auto.
  - constructor.
Qed.

Lemma nullable_complete (r : Re.regex) (s : string) :
  lang r s -> s = EmptyString -> Re.nullable r = true.
Proof.
  induction 1 as [|p c Hp|r1 r2 s1 s2 _ IH1 _ IH2|r1 r2 s _ IH|r1 r2 s _ IH| |r s1 s2 _ _ _ _];
    intros E; simpl; try reflexivity.
  - discriminate.
  - destruct (app_eq_nil_str _ _ E) as [E1 E2]. rewrite IH1, IH2; auto.
  - rewrite IH; auto.
  - rewrite IH; auto using orb_true_r.
Qed.

Lemma deriv_sound (r : Re.regex) :
  forall (c : ascii) (s : string), lang (Re.deriv c r) s -> lang r (String c s).
Proof.
  induction r as [| |p|r1 IH1 r2 IH2|r1 IH1 r2 IH2|r IH]; intros c s H; simpl in H.
  - inversion H.
  - inversion H.
  - destruct (p c) eqn:Hp; inversion H; subst. constructor. exact Hp.
  - destruct (Re.nullable r1) eqn:Hn.
    + inversion H as [| | |? ? ? H'|? ? ? H'| |]; subst.
      * inversion H' as [| |? ? s1 s2 Ha Hb| | | |]; subst.
        rewrite <- app_cons. constructor; auto.
      * change (String c s) with (EmptyString +:+ String c s).
        constructor; auto using nullable_sound.
    + inversion H as [| |? ? s1 s2 Ha Hb| | | |]; subst.
      rewrite <- app_cons. constructor; auto.
  - inversion H; subst; [apply lang_alt_l | apply lang_alt_r]; auto.
  - inversion H as [| |? ? s1 s2 Ha Hb| | | |]; subst.
    rewrite <- app_cons. constructor; auto.
Qed.

Lemma deriv_complete (r : Re.regex) (s0 : string) :
  lang r s0 ->
  forall (c : ascii) (s : string), s0 = String c s -> lang (Re.deriv c r) s.
Proof.
  induction 1 as [|p c0 Hp|r1 r2 s1 s2 H1 IH1 H2 IH2|r1 r2 s0 _ IH|r1 r2 s0 _ IH|
                  |r s1 s2 H1 IH1 H2 IH2];
    intros c s E; simpl.
  - discriminate.
  - injection E as -> <-. rewrite Hp. constructor.
  - destruct s1 as [|c1 s1].
    + rewrite (nullable_complete r1 EmptyString H1 eq_refl).
      apply lang_alt_r. apply IH2. exact E.
    + rewrite app_cons in E. injection E as -> <-.
      destruct (Re.nullable r1); [apply lang_alt_l|]; constructor; auto.
  - apply lang_alt_l. auto.
  - apply lang_alt_r. auto.
  - discriminate.
  - destruct s1 as [|c1 s1].
    + apply (IH2 c s). exact E.
    + rewrite app_cons in E. injection E as -> <-. constructor; auto.
Qed.

Lemma full_match_lang (s : string) :
  forall r : Re.regex, Re.full_match r s = true <-> lang r s.
Proof.
  induction s as [|c s IH]; intros r; simpl.
  - split; [apply nullable_sound | intros H; exact (nullable_complete r _ H eq_refl)].
  - rewrite IH. split; [apply deriv_sound | intros H; exact (deriv_complete r _ H c s eq_refl)].
Qed.

Lemma prefix_match_lang (s : string) :
  forall r : Re.regex,
    Re.prefix_match r s = true <->
    exists p rest : string, s = p +:+ rest /\ lang r p.
Proof.
  induction s as [|c s IH]; intros r; simpl.
  - rewrite orb_false_r. split.
    + intros H. exists EmptyString, EmptyString. auto using nullable_sound.
    + intros (p & rest & E & H). symmetry in E.
      destruct (app_eq_nil_str _ _ E) as [-> _]. exact (nullable_complete r _ H eq_refl).
  - rewrite orb_true_iff, IH. split.
    + intros [H|(p & rest & -> & H)].
      * exists EmptyString, (String c s). auto using nullable_sound.
      * exists (String c p), rest. auto using deriv_sound.
    + intros (p & rest & E & H). destruct p as [|c0 p].
      * left. exact (nullable_complete r _ H eq_refl).
      * right. rewrite app_cons in E. injection E as -> ->.
        exists p, rest. split; [reflexivity|]. exact (deriv_complete r _ H c0 p eq_refl).
Qed.

Lemma lang_class_inv (p : ascii -> bool) (s : string) :
  lang (Re.Class p) s <-> exists c, s = String c EmptyString /\ p c = true.
Proof.
  split.
  - intros H. inversion H; subst. eauto.
  - intros (c & -> & Hp). constructor. exact Hp.
Qed.

Lemma lang_seq_inv (r1 r2 : Re.regex) (s : string) :
  lang (Re.Seq r1 r2) s <-> exists s1 s2, s = s1 +:+ s2 /\ lang r1 s1 /\ lang r2 s2.
Proof.
  split.
  - intros H. inversion H; subst. eauto.
  - intros (s1 & s2 & -> & H1 & H2). constructor; assumption.
Qed.

Lemma lang_times (p : ascii -> bool) (n : nat) :
  forall s : string,
    lang (Re.Times n (Re.Class p)) s <-> String.length s = n /\ all_chars p s = true.
Proof.
  induction n as [|n IH]; intros s; simpl.
  - split.
    + intros H. inversion H; subst. auto.
    + intros [Hlen _]. destruct s; [constructor | discriminate].
  - rewrite lang_seq_inv. split.
    + intros (s1 & s2 & -> & H1 & H2).
      apply lang_class_inv in H1. destruct H1 as (c & -> & Hp).
      apply IH in H2. destruct H2 as [Hlen Hall].
      change (String c EmptyString +:+ s2) with (String c s2).
      simpl. rewrite Hp, Hall, Hlen. auto.
    + intros [Hlen Hall]. destruct s as [|c s]; [discriminate|].
      simpl in Hlen, Hall. apply andb_true_iff in Hall. destruct Hall as [Hp Hall].
      exists (String c EmptyString), s. split; [reflexivity|].
      split; [constructor; exact Hp|]. apply IH. split; [congruence | exact Hall].
Qed.

Lemma lang_star_class (p : ascii -> bool) (s : string) :
  lang (Re.Star (Re.Class p)) s <-> all_chars p s = true.
Proof.
  split.
  - intros H. remember (Re.Star (Re.Class p)) as r eqn:Er.
    induction H as [| | | | | |r0 s1 s2 H1 _ H2 IH2]; try discriminate; [reflexivity|].
    injection Er as ->. apply lang_class_inv in H1. destruct H1 as (c & -> & Hp).
    change (String c EmptyString +:+ s2) with (String c s2).
    simpl. rewrite Hp. apply IH2. reflexivity.
  - induction s as [|c s IH]; simpl; intros H; [constructor|].
    apply andb_true_iff in H. destruct H as [Hp Hall].
    change (String c s) with (String c EmptyString +:+ s).
    constructor; [constructor; exact Hp | auto].
Qed.

Lemma lang_plus_class (p : ascii -> bool) (s : string) :
  lang (Re.Plus (Re.Class p)) s <-> s <> EmptyString /\ all_chars p s = true.
Proof.
  unfold Re.Plus. rewrite lang_seq_inv. split.
  - intros (s1 & s2 & -> & H1 & H2).
    apply lang_class_inv in H1. destruct H1 as (c & -> & Hp).
    apply lang_star_class in H2.
    change (String c EmptyString +:+ s2) with (String c s2). simpl. rewrite Hp, H2.
    split; [discriminate | reflexivity].
  - intros [Hne Hall]. destruct s as [|c s]; [congruence|].
    simpl in Hall. apply andb_true_iff in Hall. destruct Hall as [Hp Hall].
    exists (String c EmptyString), s. split; [reflexivity|].
    split; [constructor; exact Hp | apply lang_star_class; exact Hall].
Qed.

Lemma lang_char (c0 : ascii) (s : string) :
  lang (Re.Class (Ascii.eqb c0)) s <-> s = String c0 EmptyString.
Proof.
  rewrite lang_class_inv. split.
  - intros (c & -> & Hc). apply Ascii.eqb_eq in Hc. congruence.
  - intros ->. exists c0. split; [reflexivity | apply Ascii.eqb_refl].
Qed.

Lemma lang_char_r (c0 : ascii) (p : ascii -> bool) (s : string) :
  (forall c, p c = Ascii.eqb c c0) ->
  lang (Re.Class p) s <-> s = String c0 EmptyString.
Proof.
  intros Hp. rewrite lang_class_inv. split.
  - intros (c & -> & Hc). rewrite Hp in Hc. apply Ascii.eqb_eq in Hc. congruence.
  - intros ->. exists c0. split; [reflexivity | rewrite Hp; apply Ascii.eqb_refl].
Qed.

Lemma anchored_match_shape (r : Re.regex) (s : string) :
  Re.anchored_match r s = true <-> maybe_newline (lang r) s.
Proof.
  unfold Re.anchored_match, maybe_newline.
  rewrite orb_true_iff, !full_match_lang, lang_seq_inv. split.
  - intros [H|(s1 & s2 & -> & H1 & H2)]; [left; exact H|].
    apply lang_char in H2. subst s2. right. eauto.
  - intros [H|(body & -> & H)]; [left; exact H|].
    right. exists body, newline. split; [reflexivity|].
    split; [exact H | apply lang_char; reflexivity].
Qed.

Lemma maybe_newline_iff (P Q : string -> Prop) (s : string) :
  (forall x, P x <-> Q x) -> maybe_newline P s <-> maybe_newline Q s.
Proof.
  intros HPQ. unfold maybe_newline. rewrite HPQ.
  split; (intros [H|(body & E & H)]; [left; exact H | right; exists body; split;
    [exact E | apply HPQ; exact H]]).
Qed.

Lemma expiry_lang (s : string) : lang Re.expiry_date_re s <-> expiry_shape s.
Proof.
  unfold Re.expiry_date_re, expiry_shape, digits. rewrite lang_seq_inv. split.
  - intros (a & t & -> & Ha & Ht). apply lang_seq_inv in Ht.
    destruct Ht as (sl & b & -> & Hsl & Hb).
    apply (lang_char_r "/"%char) in Hsl; [|reflexivity]. subst sl.
    apply lang_times in Ha, Hb. exists a, b. auto.
  - intros (a & b & -> & Ha & Hb). exists a, ("/" +:+ b). split; [reflexivity|].
    split; [apply lang_times; exact Ha|]. apply lang_seq_inv.
    exists "/", b. split; [reflexivity|].
    split; [apply (lang_char_r "/"%char); reflexivity | apply lang_times; exact Hb].
Qed.

Lemma email_lang (p : string) :
  lang Re.email_re p <->
  exists a b c : string, p = a +:+ "@" +:+ b +:+ "." +:+ c /\ part a /\ part b /\ part c.
Proof.
  unfold Re.email_re, part. rewrite lang_seq_inv. split.
  - intros (a & t & -> & Ha & Ht).
    apply lang_seq_inv in Ht. destruct Ht as (at_ & t2 & -> & Hat & Ht2).
    apply lang_seq_inv in Ht2. destruct Ht2 as (b & t3 & -> & Hb & Ht3).
    apply lang_seq_inv in Ht3. destruct Ht3 as (dt & c & -> & Hdt & Hc).
    apply lang_char in Hat. subst at_.
    apply (lang_char_r "."%char) in Hdt; [|reflexivity]. subst dt.
    apply lang_plus_class in Ha, Hb, Hc. exists a, b, c. auto.
  - intros (a & b & c & -> & Ha & Hb & Hc).
    exists a, ("@" +:+ b +:+ "." +:+ c). split; [reflexivity|].
    split; [apply lang_plus_class; exact Ha|]. apply lang_seq_inv.
    exists "@", (b +:+ "." +:+ c). split; [reflexivity|].
    split; [apply lang_char; reflexivity|]. apply lang_seq_inv.
    exists b, ("." +:+ c). split; [reflexivity|].
    split; [apply lang_plus_class; exact Hb|]. apply lang_seq_inv.
    exists ".", c. split; [reflexivity|].
    split; [apply (lang_char_r "."%char); reflexivity | apply lang_plus_class; exact Hc].
Qed.

Lemma email_match_shape (e : string) :
  Re.prefix_match Re.email_re e = true <-> email_shape e.
Proof.
  rewrite prefix_match_lang. unfold email_shape. split.
  - intros (p & rest & -> & Hp). apply email_lang in Hp.
    destruct Hp as (a & b & c & -> & Ha & Hb & Hc).
    exists a, b, c, rest. rewrite !app_assoc_str. auto.
  - intros (a & b & c & rest & -> & Ha & Hb & Hc).
    exists (a +:+ "@" +:+ b +:+ "." +:+ c), rest.
    split; [rewrite !app_assoc_str; reflexivity|].
    apply email_lang. exists a, b, c. auto.
Qed.

Lemma maybe_newline_nonempty (P : string -> Prop) (s : string) :
  (forall x, P x -> x <> EmptyString) -> maybe_newline P s -> s <> EmptyString.
Proof.
  intros HP [H|(body & -> & _)]; [auto|].
  intros E. apply app_eq_nil_str in E. destruct E as [_ E]. discriminate.
Qed.

Lemma anchored_field (r : Re.regex) (P : string -> Prop) (x : option string) :
  (forall s, lang r s <-> P s) ->
  (forall s, P s -> s <> EmptyString) ->
  negb (falsy x || negb (re_anchored r x)) = true <->
  exists s : string, x = Some s /\ maybe_newline P s.
Proof.
  intros HrP Hne. destruct x as [s|]; simpl.
  - rewrite negb_true_iff, orb_false_iff, negb_false_iff, String.eqb_neq,
      anchored_match_shape, (maybe_newline_iff _ _ s HrP).
    split.
    + intros [_ H]. eauto.
    + intros (s' & E & H). injection E as <-.
      split; [exact (maybe_newline_nonempty P s Hne H) | exact H].
  - split; [discriminate | intros (s & E & _); discriminate].
Qed.

Lemma digits_nonempty (n : nat) (s : string) : digits (S n) s -> s <> EmptyString.
Proof. intros [Hlen _] ->. discriminate. Qed.

Lemma expiry_nonempty (s : string) : expiry_shape s -> s <> EmptyString.
Proof.
  intros (a & b & -> & [Hlen _] & _) E. apply app_eq_nil_str in E.
  destruct E as [-> _]. discriminate.
Qed.

Lemma contains_some (d : gmap string Q) (s : string) :
  contains d (Some s) = true <-> is_Some (d !! s).
Proof. simpl. apply bool_decide_eq_true. Qed.

(** X13. What the credit-card [validate] accepts, for fields whose
    characters are all code points below 256 (as every [string] here is;
    among them [\d] stands for the ten digits 0 to 9 and nothing else),
    exactly: a card number of 16 digits, an expiry date of two digits, a
    slash and two digits, and a CVV of 3 digits, each of them possibly
    followed by one newline (the [$] of the patterns allows it), the card
    number as typed being an account of the ledger. *)
Theorem credit_card_accepted (pm : nat) (d : gmap string Q)
    (details : gmap string string) (w : World) :
  heap w !! pm = Some (CreditCard d) ->
  fst (validate pm details w) = Ok true <->
  exists cn ex cv : string,
    details !! "card_number" = Some cn /\
    details !! "expiry_date" = Some ex /\
    details !! "cvv" = Some cv /\
    maybe_newline (digits 16) cn /\
    maybe_newline expiry_shape ex /\
    maybe_newline (digits 3) cv /\
    is_Some (d !! cn).
Proof.
  intros Hobj. rewrite (validate_spec pm _ w Hobj). simpl.
  assert (Hinj : forall b : bool, (Ok b : Res bool) = Ok true <-> b = true)
    by (intros b; split; [intros E; injection E; auto | intros ->; reflexivity]).
  rewrite Hinj. unfold valid. simpl.
  rewrite !andb_true_iff.
  rewrite (anchored_field Re.card_number_re (digits 16) _
             (lang_times Re.digit 16) (digits_nonempty 15)).
  rewrite (anchored_field Re.expiry_date_re expiry_shape _ expiry_lang expiry_nonempty).
  rewrite (anchored_field Re.cvv_re (digits 3) _
             (lang_times Re.digit 3) (digits_nonempty 2)).
  split.
  - intros [[[(cn & Ecn & Hcn) (ex & Eex & Hex)] (cv & Ecv & Hcv)] Hc].
    exists cn, ex, cv. rewrite Ecn in Hc. apply contains_some in Hc. auto 10.
  - intros (cn & ex & cv & Ecn & Eex & Ecv & Hcn & Hex & Hcv & Hin).
    rewrite Ecn. rewrite contains_some. eauto 10.
Qed.

Lemma credit_card_accepted_witness :
  fst (validate 0%nat details_of_card card_world) = Ok true <->
  exists cn ex cv : string,
    details_of_card !! "card_number" = Some cn /\
    details_of_card !! "expiry_date" = Some ex /\
    details_of_card !! "cvv" = Some cv /\
    maybe_newline (digits 16) cn /\
    maybe_newline expiry_shape ex /\
    maybe_newline (digits 3) cv /\
    is_Some (({[ approved_card := 500%Q ]} : gmap string Q) !! cn).
Proof.
  exact (credit_card_accepted 0%nat {[ approved_card := 500%Q ]} details_of_card
           card_world eq_refl).
Defined.

(** X14. What the PayPal [validate] accepts, exactly: an email that
    starts with a non-empty part without [@], an [@], a second such part,
    a dot and a third such part, whatever follows (the pattern is not
    anchored at the end), and that is, as typed, an account of the
    ledger. *)
Theorem paypal_accepted (pm : nat) (d : gmap string Q)
    (details : gmap string string) (w : World) :
  heap w !! pm = Some (PayPal d) ->
  fst (validate pm details w) = Ok true <->
  exists e : string,
    details !! "email" = Some e /\ email_shape e /\ is_Some (d !! e).
Proof.
  intros Hobj. rewrite (validate_spec pm _ w Hobj). simpl.
  assert (Hinj : forall b : bool, (Ok b : Res bool) = Ok true <-> b = true)
    by (intros b; split; [intros E; injection E; auto | intros ->; reflexivity]).
  rewrite Hinj. unfold valid. simpl.
  destruct (details !! "email") as [e|]; simpl.
  - rewrite andb_true_iff, negb_true_iff, orb_false_iff, negb_false_iff,
      String.eqb_neq, email_match_shape, bool_decide_eq_true.
    split.
    + intros [[_ Hs] Hin]. eauto.
    + intros (e' & E & Hs & Hin). injection E as <-.
      split; [split; [|exact Hs] | exact Hin].
      destruct Hs as (a & b & c & rest & -> & [Ha _] & _).
      intros E. apply app_eq_nil_str in E. destruct E as [E _]. auto.
  - split; [discriminate | intros (e & E & _); discriminate].
Qed.

Lemma paypal_accepted_witness :
  fst (validate 0%nat stranger paypal_world) = Ok true <->
  exists e : string,
    stranger !! "email" = Some e /\ email_shape e /\
    is_Some ((<["Rand@gmail.com" := 500%Q]> {[ "Sama@gmail.com" := 1000%Q ]}
                : gmap string Q) !! e).
Proof.
  exact (paypal_accepted 0%nat _ stranger paypal_world eq_refl).
Defined.

(** X15. What the cryptocurrency [validate] accepts, exactly: a wallet
    address of 34 characters that is an account of the ledger. *)
Theorem wallet_accepted (pm : nat) (d : gmap string Q)
    (details : gmap string string) (w : World) :
  heap w !! pm = Some (Cryptocurrency d) ->
  fst (validate pm details w) = Ok true <->
  exists a : string,
    details !! "wallet_address" = Some a /\ String.length a = 34%nat /\ is_Some (d !! a).
Proof.
  intros Hobj. rewrite (validate_spec pm _ w Hobj). simpl.
  assert (Hinj : forall b : bool, (Ok b : Res bool) = Ok true <-> b = true)
    by (intros b; split; [intros E; injection E; auto | intros ->; reflexivity]).
  rewrite Hinj. unfold valid. simpl.
  destruct (details !! "wallet_address") as [a|]; simpl.
  - rewrite andb_true_iff, negb_true_iff, orb_false_iff, negb_false_iff,
      String.eqb_neq, Nat.eqb_eq, bool_decide_eq_true.
    split.
    + intros [[_ Hlen] Hin]. eauto.
    + intros (a' & E & Hlen & Hin). injection E as <-.
      split; [split; [|exact Hlen] | exact Hin].
      intros ->. discriminate.
  - split; [discriminate | intros (a & E & _); discriminate].
Qed.

Lemma wallet_accepted_witness :
  let d : gmap string Q := {[ "1BoatSLRHtKNngkdXEeobR76b53LETtpyT" := 1000%Q ]} in
  let w := with_heap {[ 0%nat := Cryptocurrency d ]} (fresh_world [] "t") in
  fst (validate 0%nat ∅ w) = Ok true <->
  exists a : string,
    (∅ : gmap string string) !! "wallet_address" = Some a /\
    String.length a = 34%nat /\ is_Some (d !! a).
Proof.
  intros d w. exact (wallet_accepted 0%nat d ∅ w eq_refl).
Defined.
